(** * GoPilot: the subscription registry, the distribution tick and the
      control dispatcher of [gopilot/main.go]

    The development embeds the handlers of [main.go] as functions on an
    explicit application state.  The SimConnect library ([simconnect.SimMate]
    and its helpers) is an external collaborator: it appears as an
    interface (a type class), and the calls the application issues on it are
    recorded in the state, oldest first.  The same holds for the websocket
    ([Send] and [Broadcast]).  Output on the console ([fmt.Println]) is not
    modelled. *)

From Stdlib Require Import ZArith NArith String List Lia.
From Stdlib Require Import Floats.SpecFloat.
From stdpp Require Import base option list gmap strings fin_maps.

Local Open Scope string_scope.
Local Open Scope list_scope.
Local Open Scope Z_scope.

(** ** Go values *)

(** [simconnect.DWord] is an unsigned 32-bit integer; [main.go] only compares
    and passes such values on, it never computes with them. *)
Abbreviation DWord := N (only parsing).

(** [float32] and [float64] values: IEEE numbers with their infinities and
    NaN, as the Standard Library specifies them. *)
Abbreviation float32 := spec_float (only parsing).
Abbreviation float64 := spec_float (only parsing).

Definition isFinite (f : spec_float) : bool :=
  match f with
  | S754_zero _ | S754_finite _ _ _ => true
  | S754_infinity _ | S754_nan => false
  end.

(** The scalars the application puts into an outgoing
    [map[string]interface{}]. *)
Inductive Scalar : Type :=
  | GoInt32 (z : Z)
  | GoInt64 (z : Z)
  | GoFloat32 (f : float32)
  | GoFloat64 (f : float64)
  | GoString (s : string)
  | GoBool (b : bool).

(** A value of an outgoing message: a scalar or a nested map of scalars
    (the ["data"] member).  An outgoing message, a
    [map[string]interface{}], is a [gmap string Field]. *)
Inductive Field : Type :=
  | FScalar (x : Scalar)
  | FObject (m : gmap string Scalar).

(** ** [encoding/json] *)

(** [json.Marshal] refuses NaN and the infinities (UnsupportedValueError) and
    encodes every other value that occurs here.  The bytes it returns are
    represented by the message they encode. *)
Definition encodableScalar (x : Scalar) : bool :=
  match x with
  | GoFloat32 f | GoFloat64 f => isFinite f
  | _ => true
  end.

Definition encodableField (f : Field) : bool :=
  match f with
  | FScalar x => encodableScalar x
  | FObject m => forallb (fun kv => encodableScalar kv.2) (map_to_list m)
  end.

Definition json_Marshal (msg : gmap string Field) : option (gmap string Field) :=
  if forallb (fun kv => encodableField kv.2) (map_to_list msg)
  then Some msg else None.

(** The [interface{}] values [json.Unmarshal] stores in [Message.Data].
    Arrays and objects are not inspected by any handler. *)
Inductive JValue : Type :=
  | JNil
  | JBool (b : bool)
  | JNumber (f : float64)
  | JString (s : string)
  | JComposite.

(** ** Panics *)

(** A handler either returns or panics; a failed type assertion
    [x.(T)] panics. *)
Inductive Result (A : Type) : Type :=
  | Ok (a : A)
  | Panic.
Arguments Ok {A} a.
Arguments Panic {A}.

Definition bindR {A B} (r : Result A) (k : A -> Result B) : Result B :=
  match r with
  | Ok a => k a
  | Panic => Panic
  end.

Notation "x <-! r ; k" := (bindR r (fun x => k))
  (at level 100, r at next level, right associativity).

(** [v.(string)] and [v.(float64)] on the result of a map index, which is
    the nil interface when the key is absent. *)
Definition assertString (v : option JValue) : Result string :=
  match v with
  | Some (JString s) => Ok s
  | _ => Panic
  end.

Definition assertFloat64 (v : option JValue) : Result float64 :=
  match v with
  | Some (JNumber f) => Ok f
  | _ => Panic
  end.

(** ** Data model of [main.go] *)

Record Message : Type := {
  Type_ : string;
  Meta_ : string;
  Data : gmap string JValue;
  Debug : string
}.

(** A request variable: [request.Vars] maps a define ID to a [Name] and a
    [Moniker] (read as [v.Name], [v.Moniker] in [main.go]). *)
Record Var : Type := {
  Name : string;
  Moniker : string
}.

Record Request : Type := {
  ClientID : string;
  Meta : string;
  Vars : gmap DWord Var
}.

Record RequestManager : Type := {
  Requests : list Request
}.

(** ** The SimConnect library *)

(** Values of the SIMCONNECT_DATATYPE enumeration, in the order of the
    SDK; only that they differ pairwise is used. *)
Definition DataTypeInvalid : DWord := 0.
Definition DataTypeInt32 : DWord := 1.
Definition DataTypeInt64 : DWord := 2.
Definition DataTypeFloat32 : DWord := 3.
Definition DataTypeFloat64 : DWord := 4.
Definition DataTypeString8 : DWord := 5.
Definition DataTypeString32 : DWord := 6.
Definition DataTypeString64 : DWord := 7.
Definition DataTypeString128 : DWord := 8.
Definition DataTypeString256 : DWord := 9.
Definition DataTypeString260 : DWord := 10.
Definition DataTypeStringV : DWord := 11.

(** The part of [simconnect] the application calls.  [SimMate] is the state
    of the provider, [Value] the non-nil values it hands out. *)
Class SimConnect : Type := {
  SimMate : Type;
  Value : Type;
  AddSimVar : SimMate -> string -> string -> DWord -> DWord * SimMate;
  RemoveSimVar : SimMate -> DWord -> SimMate;
  SetSimObjectData :
    SimMate -> string -> string -> float64 -> DWord -> option string * SimMate;
  (** value (nil is [None]), data type, ok *)
  SimVarValueAndDataType : SimMate -> DWord -> option Value * DWord * bool;
  IsConnected : SimMate -> bool;
  StringToDataType : string -> DWord;
  ValueToInt32 : Value -> Z;
  ValueToInt64 : Value -> Z;
  ValueToFloat32 : Value -> float32;
  ValueToFloat64 : Value -> float64;
  ValueToString : Value -> string
}.

(** Go leaves the order of [range] over a map unspecified and picks it
    anew at every range statement: [rangeVars n] is the order that the
    range statement numbered [n] of a run takes, any enumeration of the
    entries. *)
Class GoRuntime : Type := {
  rangeVars : nat -> gmap DWord Var -> list (DWord * Var);
  rangeVars_perm : forall n m, rangeVars n m ≡ₚ map_to_list m
}.

(** The calls issued on [app.mate] and on [app.socket]. *)
Inductive MateCall : Type :=
  | CallAddSimVar (name unit : string) (typ : DWord)
  | CallRemoveSimVar (defineID : DWord)
  | CallSetSimObjectData (name unit : string) (value : float64) (typ : DWord).

Inductive SocketCall : Type :=
  | Send (recipient : string) (buf : gmap string Field)
  | Broadcast (buf : gmap string Field).

(** ** The request manager *)

(** [NewRequest], [Request.Add], [AddRequest], [RefCount] and
    [RequestCount] are declared in a file of package [main] other than
    [main.go]; [main.go] shows the fields they work on ([ClientID], [Meta],
    [Vars] keyed by define ID, [Requests]). *)

(** Modelled from the spec: [NewRequest] is missing; a Request is created
    for a client and a meta tag, with no subscription yet. *)
Definition NewRequest (connID meta : string) : Request :=
  {| ClientID := connID; Meta := meta; Vars := ∅ |}.

(** Modelled from the spec: [Request.Add] is missing; it stores a
    Subscription under the client's Request.  The key is the define ID, as
    the loops of [main.go] over [request.Vars] read it. *)
Definition Request_Add (request : Request) (defineID : DWord)
    (name moniker : string) : Request :=
  {| ClientID := ClientID request;
     Meta := Meta request;
     Vars := <[defineID := {| Name := name; Moniker := moniker |}]>
               (Vars request) |}.

(** Modelled from the spec: [RequestManager.AddRequest] is missing; a
    Request is replaced wholesale on a subsequent register from the same
    client (no merge). *)
Definition AddRequest (mgr : RequestManager) (request : Request)
    : RequestManager :=
  {| Requests :=
       filter (fun r => ClientID r ≠ ClientID request) (Requests mgr)
       ++ [request] |}.

(** Modelled from the spec: [RequestManager.RefCount] is missing; it counts
    the live Subscriptions across all Requests whose variable name matches.
    The result is a Go [int]; the count is bounded by the number of stored
    subscriptions, far below the range of [int]. *)
Definition countName (name : string) (vars : gmap DWord Var) : Z :=
  Z.of_nat (length (filter (fun kv => Name kv.2 = name) (map_to_list vars))).

Definition RefCount (mgr : RequestManager) (name : string) : Z :=
  foldl (fun count request => count + countName name (Vars request))
        0 (Requests mgr).

(** Modelled from the spec: [RequestManager.RequestCount] is missing; the
    number of live Requests. *)
Definition RequestCount (mgr : RequestManager) : Z :=
  Z.of_nat (length (Requests mgr)).

Definition NewRequestManager : RequestManager := {| Requests := [] |}.

(** ** Inbound events *)

(** An element of the ["data"] array of a register message as
    [jsonparser.Get] reads it: the text of each member; a member that is
    absent reads as the empty string. *)
Definition jsonGet (value : gmap string string) (key : string) : string :=
  default "" (value !! key).

(** A websocket event.  A message carries both views the dispatcher takes
    of its bytes: the [Message] that [json.Unmarshal] fills and the elements
    that [jsonparser.ArrayEach] finds under ["data"]. *)
Inductive SocketEvent : Type :=
  | SocketEventConnected (uuid : string)
  | SocketEventDisconnected (uuid : string)
  | SocketEventMessage (uuid : string) (msg : Message)
      (dataArray : list (gmap string string)).

(** ** The application *)

Section Application.
Context `{SC : SimConnect} `{RT : GoRuntime}.

Record App : Type := {
  requestManager : RequestManager;
  mate : SimMate;
  (** calls issued on [app.mate], oldest first *)
  mateCalls : list MateCall;
  (** calls issued on [app.socket], oldest first *)
  socketCalls : list SocketCall;
  (** the number of range statements over a [request.Vars] executed *)
  ranges : nat
}.

Definition NewApp (m : SimMate) : App :=
  {| requestManager := NewRequestManager; mate := m;
     mateCalls := []; socketCalls := []; ranges := 0 |}.

Definition withRequests (app : App) (mgr : RequestManager) : App :=
  {| requestManager := mgr; mate := mate app;
     mateCalls := mateCalls app; socketCalls := socketCalls app;
     ranges := ranges app |}.

Definition withMate (app : App) (m : SimMate) (call : MateCall) : App :=
  {| requestManager := requestManager app; mate := m;
     mateCalls := mateCalls app ++ [call];
     socketCalls := socketCalls app;
     ranges := ranges app |}.

Definition withSocket (app : App) (call : SocketCall) : App :=
  {| requestManager := requestManager app; mate := mate app;
     mateCalls := mateCalls app;
     socketCalls := socketCalls app ++ [call];
     ranges := ranges app |}.

(** A range statement over a [request.Vars] has been executed. *)
Definition nextRange (app : App) : App :=
  {| requestManager := requestManager app; mate := mate app;
     mateCalls := mateCalls app;
     socketCalls := socketCalls app;
     ranges := S (ranges app) |}.

(** [app.mate.AddSimVar(name, unit, typ)] *)
Definition mateAddSimVar (app : App) (name unit : string) (typ : DWord)
    : DWord * App :=
  let '(defineID, m) := AddSimVar (mate app) name unit typ in
  (defineID, withMate app m (CallAddSimVar name unit typ)).

(** [app.mate.RemoveSimVar(defineID)] *)
Definition mateRemoveSimVar (app : App) (defineID : DWord) : App :=
  withMate app (RemoveSimVar (mate app) defineID) (CallRemoveSimVar defineID).

(** [app.mate.SetSimObjectData(name, unit, value, typ)] *)
Definition mateSetSimObjectData (app : App) (name unit : string)
    (value : float64) (typ : DWord) : option string * App :=
  let '(err, m) := SetSimObjectData (mate app) name unit value typ in
  (err, withMate app m (CallSetSimObjectData name unit value typ)).

(** *** [handleRegisterMessage] *)

(** The callback of [jsonparser.ArrayEach]. *)
Definition registerEntry (acc : App * Request) (value : gmap string string)
    : App * Request :=
  let name := jsonGet value "name" in
  let unit := jsonGet value "unit" in
  let typ := StringToDataType (jsonGet value "type") in
  let moniker := jsonGet value "moniker" in
  let '(defineID, app) := mateAddSimVar acc.1 name unit typ in
  (app, Request_Add acc.2 defineID name moniker).

Definition handleRegisterMessage (msg : Message)
    (raw : list (gmap string string)) (connID : string) (app : App) : App :=
  let request := NewRequest connID (Meta_ msg) in
  let acc := foldl registerEntry (app, request) raw in
  withRequests acc.1 (AddRequest (requestManager acc.1) acc.2).

(** *** [removeRequests] *)

(** The first loop: [temp] and [removed]. *)
Definition splitRequests (connID : string) (requests : list Request)
    : list Request * list Request :=
  foldl (fun (acc : list Request * list Request) request =>
           if decide (ClientID request ≠ connID)
           then (acc.1 ++ [request], acc.2)
           else (acc.1, acc.2 ++ [request]))
        ([], []) requests.

(** The body of the inner loop over [request.Vars]. *)
Definition releaseVar (app : App) (kv : DWord * Var) : App :=
  let count := RefCount (requestManager app) (Name kv.2) in
  if count =? 0 then mateRemoveSimVar app kv.1 else app.

Definition releaseRequest (app : App) (request : Request) : App :=
  foldl releaseVar (nextRange app) (rangeVars (ranges app) (Vars request)).

Definition removeRequests (connID : string) (app : App) : App :=
  let split := splitRequests connID (Requests (requestManager app)) in
  let app := withRequests app {| Requests := split.1 |} in
  foldl releaseRequest app split.2.

Definition handleDeregisterMessage (msg : Message) (connID : string)
    (app : App) : App :=
  removeRequests connID app.

(** *** [handleTeleportMessage] and [handleSetDataMessage] *)

Definition handleTeleportMessage (msg : Message) (app : App) : Result App :=
  latitude <-! assertFloat64 (Data msg !! "latitude");
  longitude <-! assertFloat64 (Data msg !! "longitude");
  altitude <-! assertFloat64 (Data msg !! "altitude");
  heading <-! assertFloat64 (Data msg !! "heading");
  airspeed <-! assertFloat64 (Data msg !! "airspeed");
  let bank := S754_zero false in
  let pitch := S754_zero false in
  let app := (mateSetSimObjectData app "PLANE LATITUDE" "degrees" latitude DataTypeFloat64).2 in
  let app := (mateSetSimObjectData app "PLANE LONGITUDE" "degrees" longitude DataTypeFloat64).2 in
  let app := (mateSetSimObjectData app "PLANE ALTITUDE" "feet" altitude DataTypeFloat64).2 in
  let app := (mateSetSimObjectData app "PLANE HEADING DEGREES TRUE" "degrees" heading DataTypeFloat64).2 in
  let app := (mateSetSimObjectData app "AIRSPEED TRUE" "knot" airspeed DataTypeFloat64).2 in
  let app := (mateSetSimObjectData app "PLANE BANK DEGREES" "degrees" bank DataTypeFloat64).2 in
  let app := (mateSetSimObjectData app "PLANE PITCH DEGREES" "degrees" pitch DataTypeFloat64).2 in
  Ok app.

Definition handleSetDataMessage (msg : Message) (app : App) : Result App :=
  name <-! assertString (Data msg !! "name");
  unit <-! assertString (Data msg !! "unit");
  value <-! assertFloat64 (Data msg !! "value");
  Ok (mateSetSimObjectData app name unit value DataTypeFloat64).2.

(** *** [handleSocketMessages] *)

(** One iteration of the loop, for the event received. *)
Definition handleSocketEvent (event : SocketEvent) (app : App) : Result App :=
  match event with
  | SocketEventConnected _ => Ok app
  | SocketEventDisconnected uuid => Ok (removeRequests uuid app)
  | SocketEventMessage uuid msg dataArray =>
      if decide (Type_ msg = "register")
      then Ok (handleRegisterMessage msg dataArray uuid app)
      else if decide (Type_ msg = "deregister")
      then Ok (handleDeregisterMessage msg uuid app)
      else if decide (Type_ msg = "setdata")
      then handleSetDataMessage msg app
      else if decide (Type_ msg = "teleport")
      then handleTeleportMessage msg app
      else Ok app
  end.

(** The loop on the events received; a panic ends it (and the process),
    the events that follow are never handled. *)
Fixpoint handleSocketMessages (events : list SocketEvent) (app : App)
    : Result App :=
  match events with
  | [] => Ok app
  | event :: events =>
      app <-! handleSocketEvent event app;
      handleSocketMessages events app
  end.

(** *** [OnDataReady] and [BroadcastStatusMessage] *)

Definition stringTypes : list DWord :=
  [DataTypeString8; DataTypeString32; DataTypeString64; DataTypeString128;
   DataTypeString256; DataTypeString260; DataTypeStringV].

(** The [switch dataType] of [OnDataReady]: the value stored under the
    moniker, if any case matches. *)
Definition convertValue (dataType : DWord) (value : Value) : option Scalar :=
  if decide (dataType = DataTypeInt32)
  then Some (GoInt32 (ValueToInt32 value))
  else if decide (dataType = DataTypeInt64)
  then Some (GoInt64 (ValueToInt64 value))
  else if decide (dataType = DataTypeFloat32)
  then Some (GoFloat32 (ValueToFloat32 value))
  else if decide (dataType = DataTypeFloat64)
  then Some (GoFloat64 (ValueToFloat64 value))
  else if decide (dataType ∈ stringTypes)
  then Some (GoString (ValueToString value))
  else None.

(** What one iteration on [request.Vars] stores: nothing when
    [!ok || value == nil] or when no case of the switch matches. *)
Definition readVar (m : SimMate) (defineID : DWord) : option Scalar :=
  let r := SimVarValueAndDataType m defineID in
  if negb r.2 then None
  else match r.1.1 with
       | None => None
       | Some value => convertValue r.1.2 value
       end.

Definition collectVar (m : SimMate) (vars : gmap string Scalar)
    (kv : DWord * Var) : gmap string Scalar :=
  match readVar m kv.1 with
  | Some x => <[Moniker kv.2 := x]> vars
  | None => vars
  end.

Definition collectVars (m : SimMate) (entries : list (DWord * Var))
    : gmap string Scalar :=
  foldl (collectVar m) ∅ entries.

Definition simvarsMsg (meta : string) (vars : gmap string Scalar)
    : gmap string Field :=
  <["data" := FObject vars]>
    (<["meta" := FScalar (GoString meta)]>
       (<["type" := FScalar (GoString "simvars")]>
          {["type" := FScalar (GoString "simvars")]})).

(** The body of the loop on [app.requestManager.Requests]. *)
Definition distribute (app : App) (request : Request) : App :=
  let vars :=
    collectVars (mate app) (rangeVars (ranges app) (Vars request)) in
  let app := nextRange app in
  let msg := simvarsMsg (Meta request) vars in
  let recipient := ClientID request in
  match json_Marshal msg with
  | Some buf => withSocket app (Send recipient buf)
  | None => app
  end.

Definition statusMsg (connected : bool) : gmap string Field :=
  let data : gmap string Scalar := {["simconnect" := GoBool connected]} in
  <["data" := FObject data]> {["type" := FScalar (GoString "status")]}.

(** The first component tells whether [json.Marshal] returned an error,
    which is the error [BroadcastStatusMessage] returns. *)
Definition BroadcastStatusMessage (app : App) : bool * App :=
  let msg := statusMsg (IsConnected (mate app)) in
  match json_Marshal msg with
  | None => (true, app)
  | Some buf => (false, withSocket app (Broadcast buf))
  end.

Definition OnDataReady (app : App) : App :=
  let app := foldl distribute app (Requests (requestManager app)) in
  (BroadcastStatusMessage app).2.

End Application.

(** ** [connect] *)

(** A [time.Duration] is a count of nanoseconds in a signed 64-bit integer;
    the product [time.Second * time.Duration(seconds)] wraps around. *)
Definition wrap64 (z : Z) : Z := (z + 2 ^ 63) mod 2 ^ 64 - 2 ^ 63.

Definition Second : Z := 1000000000.

Definition durationOf (seconds : Z) : Z := wrap64 (Second * seconds).

(** The loop of [connect] waits on two channels.  Time is counted in
    nanoseconds from the creation of the ticker and the timer: the ticker
    fires every [durationOf connectRetrySeconds], the timer once after
    [durationOf timeoutSeconds] (at once when that is not positive).
    [mate.Open] is taken to return before the next tick.  When both channels
    are ready [select] picks one of them at random: [selectBoth] is that
    choice. *)
Definition connectRetrySeconds : Z := 1.
Definition defaultConnectionTimeout : Z := 600.

Inductive SelectCase : Type :=
  | CaseConnectTicker
  | CaseTimeoutTimer.

Record ConnectEnv : Type := {
  (** does the attempt numbered [count] succeed? *)
  Open : Z -> bool;
  selectBoth : Z -> SelectCase
}.

(** [Could not open a connection to the simulator within %d seconds] *)
Inductive ConnectError : Type :=
  | CouldNotOpen (timeoutSeconds : Z).

Record ConnectReturn : Type := {
  err : option ConnectError;
  (** the value of [count] at the return *)
  attempts : Z;
  (** the time of the return *)
  elapsed : Z;
  (** the calls [app.mate.Open(name)] made, by their argument, oldest
      first *)
  opened : list string
}.

Definition selectCase (env : ConnectEnv) (timeoutSeconds now : Z)
    : SelectCase * Z :=
  let tick := now + durationOf connectRetrySeconds in
  let timeout := Z.max 0 (durationOf timeoutSeconds) in
  if timeout <? tick then (CaseTimeoutTimer, Z.max now timeout)
  else if tick <? timeout then (CaseConnectTicker, tick)
  else (selectBoth env tick, tick).

(** [None]: the loop is still running when the fuel is used up. *)
Fixpoint connectLoop (env : ConnectEnv) (name : string) (timeoutSeconds : Z)
    (fuel : nat) (now count : Z) (calls : list string)
    : option ConnectReturn :=
  match fuel with
  | O => None
  | S fuel =>
      match selectCase env timeoutSeconds now with
      | (CaseConnectTicker, now) =>
          let count := count + 1 in
          let calls := calls ++ [name] in
          if Open env count
          then Some {| err := None; attempts := count; elapsed := now;
                       opened := calls |}
          else connectLoop env name timeoutSeconds fuel now count calls
      | (CaseTimeoutTimer, now) =>
          Some {| err := Some (CouldNotOpen timeoutSeconds);
                  attempts := count; elapsed := now; opened := calls |}
      end
  end.

Definition connect (env : ConnectEnv) (name : string) (timeoutSeconds : Z)
    (fuel : nat) : option ConnectReturn :=
  connectLoop env name timeoutSeconds fuel 0 0 [].

(** A gateway that always fails [connect]. *)
Definition alwaysFails (choice : Z -> SelectCase) : ConnectEnv :=
  {| Open := fun _ => false; selectBoth := choice |}.

(** ** Sequences of register and deregister operations *)

Section Operations.
Context `{SC : SimConnect} `{RT : GoRuntime}.

(** What a client makes the dispatcher do to the registries: a register
    message, a deregister message, or its disconnection. *)
Inductive Op : Type :=
  | OpRegister (connID : string) (msg : Message)
      (raw : list (gmap string string))
  | OpDeregister (connID : string) (msg : Message)
  | OpDisconnect (connID : string).

Definition step (app : App) (op : Op) : App :=
  match op with
  | OpRegister connID msg raw => handleRegisterMessage msg raw connID app
  | OpDeregister connID msg => handleDeregisterMessage msg connID app
  | OpDisconnect connID => removeRequests connID app
  end.

Definition run (ops : list Op) (app : App) : App := foldl step app ops.

(** The define IDs [RemoveSimVar] was called with, oldest first. *)
Definition removedIDs (calls : list MateCall) : list DWord :=
  omap (fun call => match call with
                    | CallRemoveSimVar defineID => Some defineID
                    | _ => None
                    end) calls.

(** The number of Requests that hold a subscription keyed by [defineID]. *)
Definition subscribers (mgr : RequestManager) (defineID : DWord) : nat :=
  length (filter (fun r => is_Some (Vars r !! defineID)) (Requests mgr)).

End Operations.

(** ** A reference gateway *)

(** Modelled from the spec: the Provider Gateway behind [app.mate] is
    missing.  [registerVariable] hands out one handle per variable key
    (name, unit, type), a fresh one for a new key; [unregisterVariable]
    drops the registration; [readVariable] reports the cached value of a
    handle, or not found. *)
Record Gateway : Type := {
  registrations : list ((string * string * DWord) * DWord);
  nextHandle : DWord;
  cache : gmap DWord (option Scalar * DWord);
  connected : bool
}.

Fixpoint findHandle (key : string * string * DWord)
    (regs : list ((string * string * DWord) * DWord)) : option DWord :=
  match regs with
  | [] => None
  | reg :: regs =>
      if decide (reg.1 = key) then Some reg.2 else findHandle key regs
  end.

Definition gwRegister (g : Gateway) (name unit : string) (typ : DWord)
    : DWord * Gateway :=
  match findHandle (name, unit, typ) (registrations g) with
  | Some handle => (handle, g)
  | None =>
      (nextHandle g,
       {| registrations := registrations g ++ [((name, unit, typ), nextHandle g)];
          nextHandle := (nextHandle g + 1)%N;
          cache := cache g;
          connected := connected g |})
  end.

Definition gwUnregister (g : Gateway) (handle : DWord) : Gateway :=
  {| registrations := filter (fun reg => reg.2 ≠ handle) (registrations g);
     nextHandle := nextHandle g;
     cache := delete handle (cache g);
     connected := connected g |}.

Definition gwRead (g : Gateway) (handle : DWord) : option Scalar * DWord * bool :=
  match cache g !! handle with
  | Some (value, typ) => (value, typ, true)
  | None => (None, DataTypeInvalid, false)
  end.

(** The provider publishes a value for a handle. *)
Definition gwPublish (handle : DWord) (value : option Scalar) (typ : DWord)
    (g : Gateway) : Gateway :=
  {| registrations := registrations g;
     nextHandle := nextHandle g;
     cache := <[handle := (value, typ)]> (cache g);
     connected := connected g |}.

Definition gwTypeOf (s : string) : DWord :=
  if decide (s = "int32") then DataTypeInt32
  else if decide (s = "int64") then DataTypeInt64
  else if decide (s = "float32") then DataTypeFloat32
  else if decide (s = "float64") then DataTypeFloat64
  else if decide (s = "string") then DataTypeStringV
  else DataTypeInvalid.

#[local] Instance refGateway : SimConnect := {
  SimMate := Gateway;
  Value := Scalar;
  AddSimVar := gwRegister;
  RemoveSimVar := gwUnregister;
  SetSimObjectData := fun g _ _ _ _ => (None, g);
  SimVarValueAndDataType := gwRead;
  IsConnected := connected;
  StringToDataType := gwTypeOf;
  ValueToInt32 := fun v => match v with GoInt32 z => z | _ => 0 end;
  ValueToInt64 := fun v => match v with GoInt64 z => z | _ => 0 end;
  ValueToFloat32 :=
    fun v => match v with GoFloat32 f => f | _ => S754_zero false end;
  ValueToFloat64 :=
    fun v => match v with GoFloat64 f => f | _ => S754_zero false end;
  ValueToString := fun v => match v with GoString s => s | _ => "" end
}.

(** A run that ranges over a map in the order of its key list, every
    time. *)
#[local] Program Instance refRuntime : GoRuntime := {
  rangeVars := fun _ => map_to_list
}.
Next Obligation. reflexivity. Qed.

Definition newGateway : Gateway :=
  {| registrations := []; nextHandle := 1%N; cache := ∅; connected := true |}.

(** The application at its start, on the reference gateway. *)
Definition freshApp : App := NewApp (SC := refGateway) newGateway.

(** Sample inputs. *)
Definition entry (name unit typ moniker : string) : gmap string string :=
  <["moniker" := moniker]>
    (<["type" := typ]> (<["unit" := unit]> {["name" := name]})).

Definition message (type meta : string) (data : gmap string JValue)
    : Message :=
  {| Type_ := type; Meta_ := meta; Data := data; Debug := "" |}.

Definition num (z : Z) : float64 :=
  match z with
  | Z0 => S754_zero false
  | Zpos p => S754_finite false p 0
  | Zneg p => S754_finite true p 0
  end.

(** Two clients subscribe the same variable name in different units. *)
Definition knotsAndFeet : App :=
  run [OpRegister "A" (message "register" "panel1" ∅)
         [entry "AIRSPEED TRUE" "knot" "float64" "spd"];
       OpRegister "B" (message "register" "panel2" ∅)
         [entry "AIRSPEED TRUE" "feet per second" "float64" "airspeed"]]
      freshApp.

Definition knotsAndFeetAfterA : App := removeRequests "A" knotsAndFeet.
Definition knotsAndFeetAfterAB : App := removeRequests "B" knotsAndFeetAfterA.

(** The provider publishes a value for a handle. *)
Definition publish (handle : DWord) (value : option Scalar) (typ : DWord)
    (app : App) : App :=
  {| requestManager := requestManager app;
     mate := gwPublish handle value typ (mate app);
     mateCalls := mateCalls app;
     socketCalls := socketCalls app;
     ranges := ranges app |}.

(** Client A subscribes one variable, whose value of the tick is NaN. *)
Definition nanAirspeed : App :=
  publish 1 (Some (GoFloat64 S754_nan)) DataTypeFloat64
    (run [OpRegister "A" (message "register" "panel1" ∅)
            [entry "AIRSPEED TRUE" "knot" "float64" "spd"]]
         freshApp).

(** Client A has subscribed the airspeed; the provider holds a value for
    it and one for the altitude. *)
Definition registeredSpd : App :=
  publish 2 (Some (GoFloat64 (num 1200))) DataTypeFloat64
    (publish 1 (Some (GoFloat64 (num 120))) DataTypeFloat64
       (run [OpRegister "A" (message "register" "panel1" ∅)
               [entry "AIRSPEED TRUE" "knot" "float64" "spd"]]
            freshApp)).

Definition registerAlt : Message := message "register" "panel2" ∅.

Definition altEntries : list (gmap string string) :=
  [entry "PLANE ALTITUDE" "feet" "float64" "alt"].

(** The value of a subscribed variable is reported found and nil. *)
Definition nilAirspeed : App :=
  publish 1 None DataTypeFloat64
    (run [OpRegister "A" (message "register" "panel1" ∅)
            [entry "AIRSPEED TRUE" "knot" "float64" "spd"]]
         freshApp).

(** Control messages. *)
Definition teleportZurich : Message :=
  message "teleport" ""
    (<["latitude" := JNumber (num 47)]>
       (<["longitude" := JNumber (num 8)]>
          (<["altitude" := JNumber (num 1200)]>
             (<["heading" := JNumber (num 90)]>
                {["airspeed" := JNumber (num 120)]})))).

Definition setDataWithoutName : Message :=
  message "setdata" ""
    (<["unit" := JString "knot"]> {["value" := JNumber (num 120)]}).


Definition setDataAirspeed : Message :=
  message "setdata" ""
    (<["name" := JString "AIRSPEED TRUE"]> (Data setDataWithoutName)).

(** ** Vocabulary of the statements *)

Section Vocabulary.
Context `{SC : SimConnect} `{RT : GoRuntime}.

(** The define IDs one pass of the inner loop of [removeRequests] hands to
    [RemoveSimVar], for the registry [mgr] left by the first loop. *)
Definition releasedOf (mgr : RequestManager) (entries : list (DWord * Var))
    : list DWord :=
  (filter (fun kv => RefCount mgr (Name kv.2) = 0) entries).*1.

Definition oneRequestPerClient (mgr : RequestManager) : Prop :=
  NoDup (ClientID <$> Requests mgr).

(** The [AddSimVar] call that an element of a register message causes. *)
Definition addCall (value : gmap string string) : MateCall :=
  CallAddSimVar (jsonGet value "name") (jsonGet value "unit")
                (StringToDataType (jsonGet value "type")).

(** The monikers a register message lists. *)
Definition monikers (raw : list (gmap string string)) : list string :=
  (fun value => jsonGet value "moniker") <$> raw.

(** The socket calls made between two states. *)
Definition emitted (before after : App) : list SocketCall :=
  drop (length (socketCalls before)) (socketCalls after).

(** [x] is the value of data type [typ] converted as the switch of
    [OnDataReady] prescribes. *)
Inductive Converted : DWord -> Value -> Scalar -> Prop :=
  | ConvertedInt32 value :
      Converted DataTypeInt32 value (GoInt32 (ValueToInt32 value))
  | ConvertedInt64 value :
      Converted DataTypeInt64 value (GoInt64 (ValueToInt64 value))
  | ConvertedFloat32 value :
      Converted DataTypeFloat32 value (GoFloat32 (ValueToFloat32 value))
  | ConvertedFloat64 value :
      Converted DataTypeFloat64 value (GoFloat64 (ValueToFloat64 value))
  | ConvertedString typ value :
      typ ∈ stringTypes ->
      Converted typ value (GoString (ValueToString value)).

(** The data types the switch handles. *)
Definition handledTypes : list DWord :=
  [DataTypeInt32; DataTypeInt64; DataTypeFloat32; DataTypeFloat64]
  ++ stringTypes.

(** The value of [defineID] is found, is not nil, and converts to [x]. *)
Definition Readable (m : SimMate) (defineID : DWord) (x : Scalar) : Prop :=
  exists value typ,
    SimVarValueAndDataType m defineID = (Some value, typ, true)
    ∧ Converted typ value x.

(** [data] is an alias-to-value mapping for the subscriptions [vars]: an
    alias carries the converted value of a subscription of that alias whose
    value is found; the alias of every such subscription is present, with
    the value of that subscription when no other one shares the alias. *)
Definition payloadData (m : SimMate) (vars : gmap DWord Var)
    (data : gmap string Scalar) : Prop :=
  (forall alias x, data !! alias = Some x ->
     exists defineID v,
       vars !! defineID = Some v ∧ Moniker v = alias ∧ Readable m defineID x)
  ∧ (forall defineID v x,
       vars !! defineID = Some v -> Readable m defineID x ->
       is_Some (data !! Moniker v))
  ∧ (forall defineID v x,
       vars !! defineID = Some v -> Readable m defineID x ->
       (forall defineID' v', vars !! defineID' = Some v' ->
          Moniker v' = Moniker v -> defineID' = defineID) ->
       data !! Moniker v = Some x).

Definition encodableVars (data : gmap string Scalar) : bool :=
  forallb (fun kv => encodableScalar kv.2) (map_to_list data).

(** The [Send] of a Request whose mapping is [data], if the message can be
    encoded. *)
Definition sendOf (rd : Request * gmap string Scalar) : option SocketCall :=
  if encodableVars rd.2
  then Some (Send (ClientID rd.1) (simvarsMsg (Meta rd.1) rd.2))
  else None.

(** The mapping [OnDataReady] builds for a Request at the range statement
    numbered [n]. *)
Definition dataOf (m : SimMate) (n : nat) (request : Request)
    : gmap string Scalar :=
  collectVars m (rangeVars n (Vars request)).

(** The [Send] calls of a tick whose first range statement is numbered
    [n]. *)
Fixpoint tickSends (m : SimMate) (n : nat) (requests : list Request)
    : list SocketCall :=
  match requests with
  | [] => []
  | request :: requests =>
      option_list (sendOf (request, dataOf m n request))
      ++ tickSends m (S n) requests
  end.

(** The define IDs the second loop of [removeRequests] hands to
    [RemoveSimVar], when its first range statement is numbered [n]. *)
Fixpoint releasedFrom (mgr : RequestManager) (n : nat)
    (removed : list Request) : list DWord :=
  match removed with
  | [] => []
  | request :: removed =>
      releasedOf mgr (rangeVars n (Vars request))
      ++ releasedFrom mgr (S n) removed
  end.

(** The status payload as the specification words it:
    [{ "type": "status", "data": { "connected": <bool> } }]. *)
Definition statusMsg_spec (connected : bool) : gmap string Field :=
  let data : gmap string Scalar := {["connected" := GoBool connected]} in
  <["data" := FObject data]> {["type" := FScalar (GoString "status")]}.

Definition isSend (call : SocketCall) : Prop :=
  exists recipient buf, call = Send recipient buf.






(** The seven writes of a teleport. *)
Definition teleportCalls (latitude longitude altitude heading airspeed : float64)
    : list MateCall :=
  [CallSetSimObjectData "PLANE LATITUDE" "degrees" latitude DataTypeFloat64;
   CallSetSimObjectData "PLANE LONGITUDE" "degrees" longitude DataTypeFloat64;
   CallSetSimObjectData "PLANE ALTITUDE" "feet" altitude DataTypeFloat64;
   CallSetSimObjectData "PLANE HEADING DEGREES TRUE" "degrees" heading
     DataTypeFloat64;
   CallSetSimObjectData "AIRSPEED TRUE" "knot" airspeed DataTypeFloat64;
   CallSetSimObjectData "PLANE BANK DEGREES" "degrees" (S754_zero false)
     DataTypeFloat64;
   CallSetSimObjectData "PLANE PITCH DEGREES" "degrees" (S754_zero false)
     DataTypeFloat64].

End Vocabulary.

(** ** The HTTP handlers *)

(** What a handler does with its [http.ResponseWriter] [w]: the calls it
    makes on it, oldest first.  [ServeFile] stands for
    [http.ServeFile(w, r, name)] and [HttpError] for [http.Error]. *)
Inductive HttpCall : Type :=
  | HeaderSet (key value : string)
  | WriteHeader (code : Z)
  | HttpError (error : string) (code : Z)
  | ServeFile (name : string).

Definition StatusOK : Z := 200.
Definition StatusNotFound : Z := 404.

(** [http.StatusText], for the two codes used. *)
Definition StatusText (code : Z) : string :=
  if decide (code = StatusNotFound) then "Not Found"
  else if decide (code = StatusOK) then "OK"
  else "".

(** The order of one [range] over a [map[string]string]. *)
Class GoRangeStrings : Type := {
  rangeStrings : gmap string string -> list (string * string);
  rangeStrings_perm : forall m, rangeStrings m ≡ₚ map_to_list m
}.

Definition Headers (contentType : string) : gmap string string :=
  <["Content-Type" := contentType]>
    (<["Expires" := "0"]>
       (<["Pragma" := "no-cache"]>
          (<["Cache-Control" := "no-cache, no-store, must-revalidate"]>
             {["Access-Control-Allow-Origin" := "*"]}))).

Section HttpHandlers.
Context `{RS : GoRangeStrings}.

(** The loop [for key, value := range headers]. *)
Definition setHeaders (headers : gmap string string) (w : list HttpCall)
    : list HttpCall :=
  foldl (fun w kv => w ++ [HeaderSet kv.1 kv.2]) w (rangeStrings headers).

(** The handler returned, applied to a request of path [path]
    ([r.URL.Path]). *)
Definition StaticContentHandler (headers : gmap string string)
    (urlPath filePath : string) (path : string) (w : list HttpCall)
    : list HttpCall :=
  if decide (path ≠ urlPath)
  then w ++ [HttpError (StatusText StatusNotFound) StatusNotFound]
  else setHeaders headers w ++ [ServeFile filePath].

Definition GeneratedContentHandler (headers : gmap string string)
    (urlPath : string) (generator : list HttpCall -> list HttpCall)
    (path : string) (w : list HttpCall) : list HttpCall :=
  if decide (path ≠ urlPath)
  then w ++ [HttpError (StatusText StatusNotFound) StatusNotFound]
  else generator (setHeaders headers w ++ [WriteHeader StatusOK]).

(** The header calls for the entries of a map. *)
Definition headerCalls (headers : gmap string string) : list HttpCall :=
  (fun kv => HeaderSet kv.1 kv.2) <$> map_to_list headers.

End HttpHandlers.

#[local] Program Instance refRangeStrings : GoRangeStrings := {
  rangeStrings := map_to_list
}.
Next Obligation. reflexivity. Qed.

(** ** Further vocabulary *)

Section FurtherVocabulary.
Context `{SC : SimConnect} `{RT : GoRuntime}.

(** No two variables of the map stand under one moniker. *)
Definition uniqueMonikers (vars : gmap DWord Var) : Prop :=
  forall defineID defineID' v v',
    vars !! defineID = Some v -> vars !! defineID' = Some v' ->
    Moniker v = Moniker v' -> defineID = defineID'.

Definition isAddSimVar (call : MateCall) : Prop :=
  exists name unit typ, call = CallAddSimVar name unit typ.

(** Events that are neither a register or deregister message nor a
    disconnection. *)
Definition keepsRegistry (event : SocketEvent) : Prop :=
  match event with
  | SocketEventConnected _ => True
  | SocketEventDisconnected _ => False
  | SocketEventMessage _ msg _ =>
      Type_ msg ≠ "register" ∧ Type_ msg ≠ "deregister"
  end.

(** The state a run of events leaves, when it is handled without panic. *)
Definition handled (events : list SocketEvent) (app : App) : App :=
  match handleSocketMessages events app with
  | Ok app' => app'
  | Panic => app
  end.

End FurtherVocabulary.

(** A connection, a write and a teleport. *)
Definition writesOnly : list SocketEvent :=
  [SocketEventConnected "C";
   SocketEventMessage "C" setDataAirspeed [];
   SocketEventMessage "C" teleportZurich []].

(** A client that has subscribed a variable for which the provider holds
    no value. *)
Definition registeredUnpublished : App :=
  run [OpRegister "A" (message "register" "panel1" ∅)
         [entry "AIRSPEED TRUE" "knot" "float64" "spd"]]
      freshApp.

(** A simulator that accepts the third connect attempt. *)
Definition thirdAttempt (choice : Z -> SelectCase) : ConnectEnv :=
  {| Open := fun count => count =? 3; selectBoth := choice |}.

(** * Properties *)

(** ** The registry after [removeRequests] *)

Section RemoveRequests.
Context `{SC : SimConnect} `{RT : GoRuntime}.

Lemma splitRequests_filter (connID : string) (requests : list Request) :
  splitRequests connID requests
  = (filter (fun r => ClientID r ≠ connID) requests,
     filter (fun r => ClientID r = connID) requests).
Proof.
  unfold splitRequests.
  set (f := fun (acc : list Request * list Request) request =>
              if decide (ClientID request ≠ connID)
              then (acc.1 ++ [request], acc.2)
              else (acc.1, acc.2 ++ [request])).
  assert (G : forall l temp removed,
             foldl f (temp, removed) l
             = (temp ++ filter (fun r => ClientID r ≠ connID) l,
                removed ++ filter (fun r => ClientID r = connID) l)).
  { induction l as [|r l IH]; intros temp removed; simpl.
    - by rewrite !app_nil_r.
    - unfold f at 2; simpl. destruct (decide (ClientID r ≠ connID)) as [Hne|He].
      + rewrite IH. rewrite filter_cons_True by done.
        rewrite (filter_cons_False (fun r => ClientID r = connID)) by done.
        by rewrite <- app_assoc.
      + apply dec_stable in He. rewrite IH.
        rewrite filter_cons_False by (intros ?; done).
        rewrite (filter_cons_True (fun r => ClientID r = connID)) by done.
        by rewrite <- app_assoc. }
  apply (G requests [] []).
Qed.

Lemma releaseVar_requestManager (app : App) (kv : DWord * Var) :
  requestManager (releaseVar app kv) = requestManager app.
Proof. unfold releaseVar. by destruct (_ =? 0). Qed.

Lemma releaseVar_socketCalls (app : App) (kv : DWord * Var) :
  socketCalls (releaseVar app kv) = socketCalls app.
Proof. unfold releaseVar. by destruct (_ =? 0). Qed.

Lemma releaseRequest_requestManager (request : Request) (app : App) :
  requestManager (releaseRequest app request) = requestManager app.
Proof.
  unfold releaseRequest.
  change (requestManager app) with (requestManager (nextRange app)).
  generalize (nextRange app) as app'.
  generalize (rangeVars (ranges app) (Vars request)) as l.
  induction l as [|kv l IH]; intros app'; simpl; [done|].
  by rewrite IH, releaseVar_requestManager.
Qed.

Lemma releaseRequest_socketCalls (request : Request) (app : App) :
  socketCalls (releaseRequest app request) = socketCalls app.
Proof.
  unfold releaseRequest.
  change (socketCalls app) with (socketCalls (nextRange app)).
  generalize (nextRange app) as app'.
  generalize (rangeVars (ranges app) (Vars request)) as l.
  induction l as [|kv l IH]; intros app'; simpl; [done|].
  by rewrite IH, releaseVar_socketCalls.
Qed.

Lemma releaseRequests_requestManager (removed : list Request) (app : App) :
  requestManager (foldl releaseRequest app removed) = requestManager app.
Proof.
  revert app. induction removed as [|r l IH]; intros app; simpl; [done|].
  by rewrite IH, releaseRequest_requestManager.
Qed.

Lemma releaseRequests_socketCalls (removed : list Request) (app : App) :
  socketCalls (foldl releaseRequest app removed) = socketCalls app.
Proof.
  revert app. induction removed as [|r l IH]; intros app; simpl; [done|].
  by rewrite IH, releaseRequest_socketCalls.
Qed.

Lemma removeRequests_requestManager (connID : string) (app : App) :
  requestManager (removeRequests connID app)
  = {| Requests := filter (fun r => ClientID r ≠ connID)
                          (Requests (requestManager app)) |}.
Proof.
  unfold removeRequests. rewrite releaseRequests_requestManager.
  by rewrite splitRequests_filter.
Qed.

Lemma removeRequests_socketCalls (connID : string) (app : App) :
  socketCalls (removeRequests connID app) = socketCalls app.
Proof. unfold removeRequests. by rewrite releaseRequests_socketCalls. Qed.

Lemma filter_all {A} (P : A -> Prop) `{forall x, Decision (P x)} (l : list A) :
  (forall x, x ∈ l -> P x) -> filter P l = l.
Proof.
  induction l as [|x l IH]; intros HP; [done|].
  rewrite filter_cons_True by (apply HP; left).
  f_equal. apply IH. intros y Hy. apply HP. by right.
Qed.

Lemma filter_none {A} (P : A -> Prop) `{forall x, Decision (P x)} (l : list A) :
  (forall x, x ∈ l -> ¬ P x) -> filter P l = [].
Proof.
  induction l as [|x l IH]; intros HP; [done|].
  rewrite filter_cons_False by (apply HP; left).
  apply IH. intros y Hy. apply HP. by right.
Qed.

(** A call for a client without a Request changes nothing. *)
Lemma removeRequests_absent (connID : string) (app : App) :
  (forall r, r ∈ Requests (requestManager app) -> ClientID r ≠ connID) ->
  removeRequests connID app = app.
Proof.
  intros Habs. unfold removeRequests. rewrite splitRequests_filter. simpl.
  rewrite filter_all by done.
  rewrite (filter_none (fun r => ClientID r = connID)).
  - simpl. destruct app as [[reqs] m mc sc n]. reflexivity.
  - intros r Hr He. by apply (Habs r Hr).
Qed.

(** C7.  After [removeRequests connID] no Request of [connID] is left in the
    registry, so an iteration over the Requests never yields one; the
    Requests of the other clients are the ones that were there, unchanged
    and in their order; and when [connID] has no Request the call changes
    nothing at all. *)
Theorem removeRequests_registry (connID : string) (app : App) :
  let app' := removeRequests connID app in
  (forall r, r ∈ Requests (requestManager app') -> ClientID r ≠ connID)
  ∧ (forall r, ClientID r ≠ connID ->
       (r ∈ Requests (requestManager app')
        <-> r ∈ Requests (requestManager app)))
  ∧ Requests (requestManager app')
    = filter (fun r => ClientID r ≠ connID) (Requests (requestManager app))
  ∧ ((forall r, r ∈ Requests (requestManager app) -> ClientID r ≠ connID) ->
     app' = app).
Proof.
  intros app'. subst app'. rewrite removeRequests_requestManager. simpl.
  split; [|split; [|split]].
  - intros r Hr. by apply list_elem_of_filter in Hr as [? _].
  - intros r Hne. rewrite list_elem_of_filter. tauto.
  - reflexivity.
  - apply removeRequests_absent.
Qed.

(** C8.  [removeRequests] is idempotent: a second call for the same client
    leaves the whole state (the registry, the provider and the calls issued
    on it) as the first call left it; it issues no further [RemoveSimVar]. *)
Theorem removeRequests_idempotent (connID : string) (app : App) :
  removeRequests connID (removeRequests connID app)
  = removeRequests connID app
  ∧ mateCalls (removeRequests connID (removeRequests connID app))
    = mateCalls (removeRequests connID app).
Proof.
  assert (E : removeRequests connID (removeRequests connID app)
              = removeRequests connID app).
  { apply removeRequests_absent. intros r.
    rewrite removeRequests_requestManager. simpl.
    intros Hr. by apply list_elem_of_filter in Hr as [? _]. }
  split; [exact E | by rewrite E].
Qed.

End RemoveRequests.

(** ** Reference counting by name and the provider registrations *)

Section Registrations.
Context `{SC : SimConnect} `{RT : GoRuntime}.

Lemma RefCount_nonneg (mgr : RequestManager) (name : string) :
  0 <= RefCount mgr name.
Proof.
  unfold RefCount.
  assert (G : forall l count, 0 <= count ->
            0 <= foldl (fun count request =>
                          count + countName name (Vars request)) count l).
  { induction l as [|r l IH]; intros count Hc; simpl; [done|].
    apply IH. unfold countName. lia. }
  by apply G.
Qed.

Lemma rangeVars_lookup (n : nat) (vars : gmap DWord Var) (defineID : DWord)
    (v : Var) :
  (defineID, v) ∈ rangeVars n vars <-> vars !! defineID = Some v.
Proof. rewrite rangeVars_perm. apply elem_of_map_to_list. Qed.

Lemma rangeVars_NoDup (n : nat) (vars : gmap DWord Var) :
  NoDup (rangeVars n vars).*1.
Proof. rewrite rangeVars_perm. apply NoDup_fst_map_to_list. Qed.

Lemma releasedOf_elem (mgr : RequestManager) (n : nat)
    (vars : gmap DWord Var) (defineID : DWord) :
  defineID ∈ releasedOf mgr (rangeVars n vars)
  <-> exists v, vars !! defineID = Some v ∧ RefCount mgr (Name v) = 0.
Proof.
  unfold releasedOf. rewrite list_elem_of_fmap. split.
  - intros [[d v] [-> Hin]]. apply list_elem_of_filter in Hin as [Hc Hin].
    exists v. split; [by apply (rangeVars_lookup n) | done].
  - intros (v & Hv & Hc). exists (defineID, v). split; [done|].
    apply list_elem_of_filter. split; [done | by apply rangeVars_lookup].
Qed.

Lemma releasedOf_NoDup (mgr : RequestManager) (n : nat)
    (vars : gmap DWord Var) :
  NoDup (releasedOf mgr (rangeVars n vars)).
Proof.
  unfold releasedOf. eapply sublist_NoDup; [apply rangeVars_NoDup|].
  apply fmap_sublist, sublist_filter.
Qed.

Lemma releasedFrom_elem (mgr : RequestManager) (removed : list Request)
    (n : nat) (defineID : DWord) :
  defineID ∈ releasedFrom mgr n removed
  <-> exists r v, r ∈ removed ∧ Vars r !! defineID = Some v
                  ∧ RefCount mgr (Name v) = 0.
Proof.
  revert n. induction removed as [|r l IH]; intros n; simpl.
  - split; [by intros ?%elem_of_nil|].
    by intros (r & v & ?%elem_of_nil & _).
  - rewrite elem_of_app, releasedOf_elem, IH. split.
    + intros [(v & Hv & H0)|(r' & v & Hr & Hv & H0)].
      * exists r, v. split; [by left | done].
      * exists r', v. split; [by right | done].
    + intros (r' & v & Hr & Hv & H0). apply elem_of_cons in Hr as [->|Hr].
      * left. by exists v.
      * right. by exists r', v.
Qed.

Lemma releaseVar_mateCalls (app : App) (kv : DWord * Var) :
  mateCalls (releaseVar app kv)
  = mateCalls app
    ++ (CallRemoveSimVar <$> releasedOf (requestManager app) [kv]).
Proof.
  unfold releaseVar, releasedOf.
  destruct (Z.eqb_spec (RefCount (requestManager app) (Name kv.2)) 0) as [E|E].
  - rewrite filter_cons_True by done. reflexivity.
  - rewrite filter_cons_False by done. simpl. by rewrite app_nil_r.
Qed.

Lemma releasedOf_app (mgr : RequestManager) (l k : list (DWord * Var)) :
  releasedOf mgr (l ++ k) = releasedOf mgr l ++ releasedOf mgr k.
Proof. unfold releasedOf. by rewrite filter_app, fmap_app. Qed.

Lemma releaseVars_mateCalls (entries : list (DWord * Var)) (app : App) :
  mateCalls (foldl releaseVar app entries)
  = mateCalls app
    ++ (CallRemoveSimVar <$> releasedOf (requestManager app) entries)
  ∧ requestManager (foldl releaseVar app entries) = requestManager app
  ∧ ranges (foldl releaseVar app entries) = ranges app.
Proof.
  revert app. induction entries as [|kv l IH]; intros app; simpl.
  - by rewrite app_nil_r.
  - destruct (IH (releaseVar app kv)) as (-> & -> & ->).
    rewrite releaseVar_mateCalls, releaseVar_requestManager.
    split; [|split; [done|]].
    + rewrite <- app_assoc, <- fmap_app.
      by rewrite <- releasedOf_app.
    + unfold releaseVar. by destruct (_ =? 0).
Qed.

Lemma releaseRequests_mateCalls (removed : list Request) (app : App) :
  mateCalls (foldl releaseRequest app removed)
  = mateCalls app
    ++ (CallRemoveSimVar
          <$> releasedFrom (requestManager app) (ranges app) removed).
Proof.
  revert app. induction removed as [|r l IH]; intros app; simpl.
  - by rewrite app_nil_r.
  - rewrite IH. unfold releaseRequest.
    destruct (releaseVars_mateCalls (rangeVars (ranges app) (Vars r))
                (nextRange app)) as (-> & -> & ->).
    simpl. by rewrite <- app_assoc, <- fmap_app.
Qed.

(** The calls of [removeRequests]: one [RemoveSimVar] per subscription of a
    removed Request whose name no remaining Request subscribes. *)
Lemma removeRequests_mateCalls (connID : string) (app : App) :
  mateCalls (removeRequests connID app)
  = mateCalls app
    ++ (CallRemoveSimVar
          <$> releasedFrom (requestManager (removeRequests connID app))
                (ranges app)
                (filter (fun r => ClientID r = connID)
                        (Requests (requestManager app)))).
Proof.
  rewrite removeRequests_requestManager.
  unfold removeRequests. rewrite releaseRequests_mateCalls.
  by rewrite splitRequests_filter.
Qed.

Lemma filter_client_NoDup (connID : string) (l : list Request) :
  NoDup (ClientID <$> l) ->
  filter (fun r => ClientID r = connID) l = []
  ∨ exists r, filter (fun r => ClientID r = connID) l = [r].
Proof.
  induction l as [|x l IH]; intros Hnd; [by left|].
  apply NoDup_cons in Hnd as [Hx Hnd].
  destruct (decide (ClientID x = connID)) as [E|E].
  - right. exists x. rewrite filter_cons_True by done. f_equal.
    apply filter_none. intros y Hy Hc. apply Hx.
    apply list_elem_of_fmap. exists y. split; [congruence | done].
  - rewrite filter_cons_False by done. by apply IH.
Qed.

Lemma NoDup_fmap_filter {A B} (f : A -> B) (P : A -> Prop)
    `{forall x, Decision (P x)} (l : list A) :
  NoDup (f <$> l) -> NoDup (f <$> filter P l).
Proof.
  intros Hnd. eapply sublist_NoDup; [exact Hnd|].
  apply fmap_sublist, sublist_filter.
Qed.

(** *** The registry along a sequence of operations *)

Lemma registerEntry_eq (app : App) (request : Request)
    (value : gmap string string) :
  registerEntry (app, request) value
  = let r := AddSimVar (mate app) (jsonGet value "name")
               (jsonGet value "unit")
               (StringToDataType (jsonGet value "type")) in
    (withMate app r.2 (addCall value),
     Request_Add request r.1 (jsonGet value "name")
                 (jsonGet value "moniker")).
Proof.
  unfold registerEntry, mateAddSimVar. simpl.
  by destruct (AddSimVar _ _ _ _).
Qed.

Lemma registerEntries_fold (raw : list (gmap string string)) (app : App)
    (request : Request) :
  requestManager (foldl registerEntry (app, request) raw).1
  = requestManager app
  ∧ socketCalls (foldl registerEntry (app, request) raw).1 = socketCalls app
  ∧ mateCalls (foldl registerEntry (app, request) raw).1
    = mateCalls app ++ (addCall <$> raw)
  ∧ ClientID (foldl registerEntry (app, request) raw).2 = ClientID request
  ∧ Meta (foldl registerEntry (app, request) raw).2 = Meta request.
Proof.
  revert app request. induction raw as [|value raw IH]; intros app request.
  - simpl. by rewrite app_nil_r.
  - simpl. rewrite registerEntry_eq. simpl.
    destruct (IH (withMate app
                   (AddSimVar (mate app) (jsonGet value "name")
                      (jsonGet value "unit")
                      (StringToDataType (jsonGet value "type"))).2
                   (addCall value))
                 (Request_Add request
                   (AddSimVar (mate app) (jsonGet value "name")
                      (jsonGet value "unit")
                      (StringToDataType (jsonGet value "type"))).1
                   (jsonGet value "name") (jsonGet value "moniker")))
      as (-> & -> & -> & -> & ->).
    simpl. by rewrite <- app_assoc.
Qed.

Lemma handleRegisterMessage_requests (msg : Message)
    (raw : list (gmap string string)) (connID : string) (app : App) :
  exists request,
    ClientID request = connID ∧ Meta request = Meta_ msg
    ∧ request = (foldl registerEntry (app, NewRequest connID (Meta_ msg)) raw).2
    ∧ Requests (requestManager (handleRegisterMessage msg raw connID app))
      = filter (fun r => ClientID r ≠ connID) (Requests (requestManager app))
        ++ [request].
Proof.
  unfold handleRegisterMessage.
  destruct (registerEntries_fold raw app (NewRequest connID (Meta_ msg)))
    as (Hm & _ & _ & Hc & Hmeta).
  eexists. split; [exact Hc|]. split; [exact Hmeta|]. split; [reflexivity|].
  simpl. rewrite Hm. simpl in Hc. by rewrite Hc.
Qed.

Lemma step_oneRequestPerClient (op : Op) (app : App) :
  oneRequestPerClient (requestManager app) ->
  oneRequestPerClient (requestManager (step app op)).
Proof.
  unfold oneRequestPerClient. intros Hnd. destruct op as [c msg raw|c msg|c]; unfold step.
  - destruct (handleRegisterMessage_requests msg raw c app)
      as (request & Hc & _ & _ & ->).
    rewrite fmap_app. apply NoDup_app. split; [by apply NoDup_fmap_filter|].
    split; [|apply NoDup_singleton].
    intros x Hx. simpl. rewrite list_elem_of_singleton. intros ->.
    apply list_elem_of_fmap in Hx as (r & Hr & Hin).
    apply list_elem_of_filter in Hin as [Hne _]. congruence.
  - unfold handleDeregisterMessage. rewrite removeRequests_requestManager.
    simpl. by apply NoDup_fmap_filter.
  - rewrite removeRequests_requestManager.
    simpl. by apply NoDup_fmap_filter.
Qed.

Lemma run_oneRequestPerClient (ops : list Op) (app : App) :
  oneRequestPerClient (requestManager app) ->
  oneRequestPerClient (requestManager (run ops app)).
Proof.
  unfold run. revert app. induction ops as [|op ops IH]; intros app Hinv.
  - done.
  - simpl. apply IH. by apply step_oneRequestPerClient.
Qed.

End Registrations.

Section ReferenceCounting.
Context `{SC : SimConnect} `{RT : GoRuntime}.

Lemma countName_pos (vars : gmap DWord Var) (defineID : DWord) (v : Var) :
  vars !! defineID = Some v -> 1 <= countName (Name v) vars.
Proof.
  intros Hv. unfold countName.
  assert (Hin : (defineID, v)
                ∈ filter (fun kv : DWord * Var => Name kv.2 = Name v)
                         (map_to_list vars)).
  { apply list_elem_of_filter. split; [done | by apply elem_of_map_to_list]. }
  destruct (filter _ _) as [|x l]; [by apply elem_of_nil in Hin|].
  simpl. lia.
Qed.

Lemma RefCount_elem (mgr : RequestManager) (r : Request) (name : string) :
  r ∈ Requests mgr -> countName name (Vars r) <= RefCount mgr name.
Proof.
  unfold RefCount. generalize (Requests mgr) as l.
  assert (G : forall l count,
            count <= foldl (fun count request =>
                              count + countName name (Vars request)) count l).
  { induction l as [|x l IH]; intros count; simpl; [lia|].
    etransitivity; [|apply IH]. unfold countName. lia. }
  assert (G' : forall l count, r ∈ l ->
            count + countName name (Vars r)
            <= foldl (fun count request =>
                        count + countName name (Vars request)) count l).
  { induction l as [|x l IH]; intros count Hin; [by apply elem_of_nil in Hin|].
    simpl. apply elem_of_cons in Hin as [<-|Hin].
    - apply G.
    - etransitivity; [|apply IH; exact Hin]. unfold countName. lia. }
  intros l Hin. by apply (G' l 0).
Qed.

(** C1 (amended).  Along every sequence of register, deregister and
    disconnect operations the reference count of a name is never negative;
    [removeRequests] issues [RemoveSimVar] exactly once for each define ID
    that the removed Request of the client holds and whose variable name no
    remaining Request subscribes (the count of the name, at least 1 before,
    is 0 after), and for no other define ID; a register message issues one
    [AddSimVar] per element of its list, whatever the counts are. *)
Theorem removeRequests_releases_by_name (ops : list Op) (m : SimMate)
    (connID : string) :
  let app := run ops (NewApp m) in
  let app' := removeRequests connID app in
  (forall name, 0 <= RefCount (requestManager app) name
                ∧ 0 <= RefCount (requestManager app') name)
  ∧ (exists ids,
       mateCalls app' = mateCalls app ++ (CallRemoveSimVar <$> ids)
       ∧ NoDup ids
       ∧ forall defineID,
           defineID ∈ ids <->
           exists r v,
             r ∈ Requests (requestManager app) ∧ ClientID r = connID
             ∧ Vars r !! defineID = Some v
             ∧ 1 <= RefCount (requestManager app) (Name v)
             ∧ RefCount (requestManager app') (Name v) = 0)
  ∧ (forall msg raw,
       mateCalls (handleRegisterMessage msg raw connID app)
       = mateCalls app ++ (addCall <$> raw)).
Proof.
  intros app app'. split; [|split].
  - intros name. split; apply RefCount_nonneg.
  - eexists. split; [apply removeRequests_mateCalls|].
    fold app'.
    assert (Hinv : oneRequestPerClient (requestManager app)).
    { apply run_oneRequestPerClient. apply NoDup_nil_2. }
    split.
    + destruct (filter_client_NoDup connID _ Hinv) as [->|[r ->]].
      * apply NoDup_nil_2.
      * simpl. rewrite app_nil_r. apply releasedOf_NoDup.
    + intros defineID. rewrite releasedFrom_elem. split.
      * intros (r & v & Hr & Hv & H0).
        apply list_elem_of_filter in Hr as [Hc Hr].
        exists r, v. repeat split; try done.
        etransitivity; [apply (countName_pos _ _ _ Hv)|].
        by apply RefCount_elem.
      * intros (r & v & Hr & Hc & Hv & _ & H0). exists r, v.
        split; [by apply list_elem_of_filter | done].
  - intros msg raw. unfold handleRegisterMessage. simpl.
    by destruct (registerEntries_fold raw app (NewRequest connID (Meta_ msg)))
      as (_ & _ & -> & _).
Qed.

End ReferenceCounting.

(** C1, as stated, fails.  Client A subscribes AIRSPEED TRUE in knots
    (define ID 1), client B in feet per second (define ID 2).  When A
    deregisters, the last subscription of define ID 1 is released, yet no
    [RemoveSimVar] is issued for it, because B still subscribes the name;
    when B deregisters too, only define ID 2 is removed and the gateway
    keeps the registration of define ID 1. *)
Lemma release_by_name_keeps_registration :
  subscribers (requestManager knotsAndFeet) 1 = 1%nat
  ∧ subscribers (requestManager knotsAndFeetAfterA) 1 = 0%nat
  ∧ removedIDs (mateCalls knotsAndFeetAfterA) = []
  ∧ Requests (requestManager knotsAndFeetAfterAB) = []
  ∧ removedIDs (mateCalls knotsAndFeetAfterAB) = [2%N]
  ∧ registrations (mate knotsAndFeetAfterAB)
    = [(("AIRSPEED TRUE", "knot", DataTypeFloat64), 1%N)].
Proof. vm_compute. repeat split; reflexivity. Qed.

(** ** The distribution tick *)

Section Distribution.
Context `{SC : SimConnect} `{RT : GoRuntime}.

Lemma stringTypes_handled (typ : DWord) :
  typ ∈ stringTypes ->
  typ ≠ DataTypeInt32 ∧ typ ≠ DataTypeInt64
  ∧ typ ≠ DataTypeFloat32 ∧ typ ≠ DataTypeFloat64.
Proof.
  unfold stringTypes. intros Hin.
  repeat (apply elem_of_cons in Hin as [->|Hin]; [by repeat split|]).
  by apply elem_of_nil in Hin.
Qed.

Lemma convertValue_Converted (typ : DWord) (value : Value) (x : Scalar) :
  convertValue typ value = Some x <-> Converted typ value x.
Proof.
  unfold convertValue. split.
  - repeat case_decide; intros [= <-]; subst; by constructor.
  - intros Hc. destruct Hc as [v|v|v|v|typ v Hin]; try reflexivity.
    destruct (stringTypes_handled _ Hin) as (? & ? & ? & ?).
    by repeat (rewrite decide_False by done); rewrite decide_True by done.
Qed.

Lemma convertValue_None (typ : DWord) (value : Value) :
  convertValue typ value = None <-> typ ∉ handledTypes.
Proof.
  unfold convertValue, handledTypes. simpl.
  rewrite !not_elem_of_cons.
  repeat case_decide; split; try done; try tauto.
Qed.

Lemma readVar_Readable (m : SimMate) (defineID : DWord) (x : Scalar) :
  readVar m defineID = Some x <-> Readable m defineID x.
Proof.
  unfold readVar, Readable.
  destruct (SimVarValueAndDataType m defineID) as [[value typ] ok]. simpl.
  split.
  - destruct ok; simpl; [|done]. destruct value as [value|]; [|done].
    intros Hc. exists value, typ. split; [done|].
    by apply convertValue_Converted.
  - intros (value' & typ' & [= -> -> ->] & Hc). simpl.
    by apply convertValue_Converted.
Qed.

Lemma collectVars_snoc (m : SimMate) (l : list (DWord * Var)) (kv : DWord * Var) :
  collectVars m (l ++ [kv]) = collectVar m (collectVars m l) kv.
Proof. unfold collectVars. by rewrite foldl_app. Qed.

Lemma collectVars_sound (m : SimMate) (l : list (DWord * Var)) (alias : string)
    (x : Scalar) :
  collectVars m l !! alias = Some x ->
  exists kv, kv ∈ l ∧ Moniker kv.2 = alias ∧ readVar m kv.1 = Some x.
Proof.
  induction l as [|kv l IH] using rev_ind.
  - unfold collectVars. simpl. by rewrite lookup_empty.
  - rewrite collectVars_snoc. unfold collectVar.
    destruct (readVar m kv.1) as [y|] eqn:E.
    + rewrite lookup_insert. case_decide as Ha.
      * intros [= ->]. exists kv. split; [|done].
        apply elem_of_app. right. by apply list_elem_of_singleton.
      * intros Hl. destruct (IH Hl) as (kv' & Hin & Hk).
        exists kv'. split; [|done]. apply elem_of_app. by left.
    + intros Hl. destruct (IH Hl) as (kv' & Hin & Hk).
      exists kv'. split; [|done]. apply elem_of_app. by left.
Qed.

Lemma collectVars_present (m : SimMate) (l : list (DWord * Var)) (kv : DWord * Var)
    (x : Scalar) :
  kv ∈ l -> readVar m kv.1 = Some x ->
  is_Some (collectVars m l !! Moniker kv.2).
Proof.
  induction l as [|kv' l IH] using rev_ind; intros Hin Hr.
  - by apply elem_of_nil in Hin.
  - rewrite collectVars_snoc. unfold collectVar.
    apply elem_of_app in Hin as [Hin|Hin].
    + destruct (readVar m kv'.1) as [y|]; [|by apply IH].
      rewrite lookup_insert. case_decide; [by eexists | by apply IH].
    + apply list_elem_of_singleton in Hin as <-. rewrite Hr.
      rewrite lookup_insert_eq. by eexists.
Qed.

Lemma dataOf_payloadData (m : SimMate) (n : nat) (request : Request) :
  payloadData m (Vars request) (dataOf m n request).
Proof.
  unfold payloadData, dataOf.
  assert (Hsound : forall alias x,
            collectVars m (rangeVars n (Vars request)) !! alias = Some x ->
            exists defineID v,
              Vars request !! defineID = Some v ∧ Moniker v = alias
              ∧ Readable m defineID x).
  { intros alias x Hl.
    destruct (collectVars_sound _ _ _ _ Hl) as ([d v] & Hin & Ha & Hr).
    exists d, v. split; [by apply (rangeVars_lookup n)|].
    split; [done | by apply readVar_Readable]. }
  assert (Hpresent : forall defineID v x,
            Vars request !! defineID = Some v -> Readable m defineID x ->
            is_Some (collectVars m (rangeVars n (Vars request))
                     !! Moniker v)).
  { intros d v x Hv Hr.
    apply (collectVars_present m _ (d, v) x).
    - by apply rangeVars_lookup.
    - by apply readVar_Readable. }
  split; [exact Hsound|]. split; [exact Hpresent|].
  intros d v x Hv Hr Huniq.
  destruct (Hpresent d v x Hv Hr) as [y Hy].
  destruct (Hsound _ _ Hy) as (d' & v' & Hv' & Ha & Hr').
  rewrite (Huniq d' v' Hv' Ha) in Hr'.
  rewrite Hy. f_equal.
  apply readVar_Readable in Hr, Hr'. congruence.
Qed.

(** *** Encoding *)

Lemma forallb_map_to_list {A} (f : A -> bool) (m : gmap string A) :
  forallb (fun kv => f kv.2) (map_to_list m) = true
  <-> forall k v, m !! k = Some v -> f v = true.
Proof.
  rewrite forallb_forall. split.
  - intros Hall k v Hkv. apply (Hall (k, v)).
    apply list_elem_of_In. by apply elem_of_map_to_list.
  - intros Hall [k v] Hin. apply Hall with k.
    apply elem_of_map_to_list. by apply list_elem_of_In.
Qed.

Lemma json_Marshal_Some (msg buf : gmap string Field) :
  json_Marshal msg = Some buf -> buf = msg.
Proof. unfold json_Marshal. destruct (forallb _ _); congruence. Qed.

Lemma simvarsMsg_lookup (meta : string) (vars : gmap string Scalar)
    (k : string) :
  simvarsMsg meta vars !! k
  = if decide (k = "data") then Some (FObject vars)
    else if decide (k = "meta") then Some (FScalar (GoString meta))
    else if decide (k = "type") then Some (FScalar (GoString "simvars"))
    else None.
Proof.
  unfold simvarsMsg. repeat case_decide; subst; by simplify_map_eq.
Qed.

Lemma json_Marshal_simvarsMsg (meta : string) (vars : gmap string Scalar) :
  json_Marshal (simvarsMsg meta vars)
  = if encodableVars vars then Some (simvarsMsg meta vars) else None.
Proof.
  unfold json_Marshal.
  assert (E : forallb (fun kv => encodableField kv.2)
                (map_to_list (simvarsMsg meta vars))
              = encodableVars vars); [|by rewrite E].
  apply eq_true_iff_eq. rewrite forallb_map_to_list. split.
  - intros Hall. apply (Hall "data" (FObject vars)).
    by rewrite simvarsMsg_lookup.
  - intros He k v. rewrite simvarsMsg_lookup.
    repeat case_decide; intros [= <-]; done.
Qed.

Lemma json_Marshal_statusMsg (connected : bool) :
  json_Marshal (statusMsg connected) = Some (statusMsg connected).
Proof. destruct connected; vm_compute; reflexivity. Qed.

Lemma statusMsg_lookup (connected : bool) (k : string) :
  statusMsg connected !! k
  = if decide (k = "data")
    then Some (FObject {["simconnect" := GoBool connected]})
    else if decide (k = "type") then Some (FScalar (GoString "status"))
    else None.
Proof.
  unfold statusMsg. repeat case_decide; subst; by simplify_map_eq.
Qed.

(** *** The calls of a tick *)

Lemma distribute_eq (app : App) (request : Request) :
  distribute app request
  = match sendOf (request, dataOf (mate app) (ranges app) request) with
    | Some call => withSocket (nextRange app) call
    | None => nextRange app
    end.
Proof.
  unfold distribute, sendOf, dataOf. simpl.
  rewrite json_Marshal_simvarsMsg. by destruct (encodableVars _).
Qed.

Lemma distribute_fold (requests : list Request) (app : App) :
  requestManager (foldl distribute app requests) = requestManager app
  ∧ mate (foldl distribute app requests) = mate app
  ∧ mateCalls (foldl distribute app requests) = mateCalls app
  ∧ ranges (foldl distribute app requests)
    = (ranges app + length requests)%nat
  ∧ socketCalls (foldl distribute app requests)
    = socketCalls app ++ tickSends (mate app) (ranges app) requests.
Proof.
  revert app. induction requests as [|r l IH]; intros app; simpl.
  - rewrite app_nil_r. repeat split; try done; lia.
  - destruct (IH (distribute app r)) as (-> & -> & -> & -> & ->).
    rewrite distribute_eq.
    destruct (sendOf (r, dataOf (mate app) (ranges app) r)) as [call|];
      simpl; repeat split; try done; try lia.
    by rewrite <- app_assoc.
Qed.

Lemma OnDataReady_calls (app : App) :
  requestManager (OnDataReady app) = requestManager app
  ∧ mate (OnDataReady app) = mate app
  ∧ mateCalls (OnDataReady app) = mateCalls app
  ∧ socketCalls (OnDataReady app)
    = socketCalls app
      ++ tickSends (mate app) (ranges app) (Requests (requestManager app))
      ++ [Broadcast (statusMsg (IsConnected (mate app)))].
Proof.
  unfold OnDataReady, BroadcastStatusMessage.
  rewrite json_Marshal_statusMsg. simpl.
  destruct (distribute_fold (Requests (requestManager app)) app)
    as (-> & -> & -> & _ & ->).
  by rewrite <- app_assoc.
Qed.

Lemma OnDataReady_ranges (app : App) :
  ranges (OnDataReady app)
  = (ranges app + length (Requests (requestManager app)))%nat.
Proof.
  unfold OnDataReady, BroadcastStatusMessage.
  rewrite json_Marshal_statusMsg. simpl.
  by destruct (distribute_fold (Requests (requestManager app)) app)
    as (_ & _ & _ & -> & _).
Qed.

(** Every [Send] of a tick is the payload of a Request, built at one of the
    range statements of the tick. *)
Lemma tickSends_elem (m : SimMate) (requests : list Request) (n : nat)
    (call : SocketCall) :
  call ∈ tickSends m n requests ->
  exists r k, r ∈ requests ∧ sendOf (r, dataOf m k r) = Some call.
Proof.
  revert n. induction requests as [|r l IH]; intros n; simpl.
  - by intros ?%elem_of_nil.
  - intros [Hin|Hin]%elem_of_app.
    + exists r, n. split; [by left|].
      destruct (sendOf _) as [c|]; simpl in Hin.
      * by apply list_elem_of_singleton in Hin as ->.
      * by apply elem_of_nil in Hin.
    + destruct (IH _ Hin) as (r' & k & Hr & Hs).
      exists r', k. split; [by right | done].
Qed.

(** A Request whose payload does not depend on the order is sent it. *)
Lemma tickSends_intro (m : SimMate) (requests : list Request) (n : nat)
    (r : Request) (call : SocketCall) :
  r ∈ requests ->
  (forall k, sendOf (r, dataOf m k r) = Some call) ->
  call ∈ tickSends m n requests.
Proof.
  intros Hin Hs. revert n. induction requests as [|r' l IH]; intros n.
  - by apply elem_of_nil in Hin.
  - simpl. apply elem_of_app. apply elem_of_cons in Hin as [<-|Hin].
    + left. rewrite Hs. by left.
    + right. by apply IH.
Qed.

Lemma tickSends_datas (m : SimMate) (requests : list Request) (n : nat) :
  exists datas,
    Forall2 (fun r data => payloadData m (Vars r) data) requests datas
    ∧ tickSends m n requests = omap sendOf (zip requests datas).
Proof.
  revert n. induction requests as [|r l IH]; intros n.
  - exists []. split; [constructor | done].
  - destruct (IH (S n)) as (datas & Hall & Heq).
    exists (dataOf m n r :: datas). split.
    + constructor; [apply dataOf_payloadData | done].
    + simpl. rewrite Heq. csimpl.
      by destruct (sendOf (r, dataOf m n r)).
Qed.

End Distribution.

Section Tick.
Context `{SC : SimConnect} `{RT : GoRuntime}.

Lemma emitted_OnDataReady (app : App) :
  emitted app (OnDataReady app)
  = tickSends (mate app) (ranges app) (Requests (requestManager app))
    ++ [Broadcast (statusMsg (IsConnected (mate app)))].
Proof.
  unfold emitted.
  destruct (OnDataReady_calls app) as (_ & _ & _ & ->).
  by rewrite drop_app_length.
Qed.

(** C2 (amended).  On a data-ready tick the pipeline builds, for every live
    Request, an alias-to-value mapping: every alias present carries the
    value, converted per its data type, of a subscription of that alias
    whose value is found; the alias of every such subscription is present
    (with that subscription's value when it is the only one of that alias);
    an alias without a found value is omitted.  For each Request whose
    message can be encoded it sends [{type: "simvars", meta, data}] to the
    client of the Request, once, in the order of the Requests; a Request
    whose message cannot be encoded gets no payload on this tick. *)
Theorem OnDataReady_payloads (app : App) :
  exists datas : list (gmap string Scalar),
    Forall2 (fun r data => payloadData (mate app) (Vars r) data)
            (Requests (requestManager app)) datas
    ∧ socketCalls (OnDataReady app)
      = socketCalls app
        ++ omap sendOf (zip (Requests (requestManager app)) datas)
        ++ [Broadcast (statusMsg (IsConnected (mate app)))]
    ∧ forall meta vars k,
        simvarsMsg meta vars !! k
        = if decide (k = "data") then Some (FObject vars)
          else if decide (k = "meta") then Some (FScalar (GoString meta))
          else if decide (k = "type")
               then Some (FScalar (GoString "simvars"))
          else None.
Proof.
  destruct (tickSends_datas (mate app) (Requests (requestManager app))
              (ranges app)) as (datas & Hall & Heq).
  exists datas. split; [done|]. split.
  - rewrite <- Heq. by destruct (OnDataReady_calls app) as (_ & _ & _ & ->).
  - apply simvarsMsg_lookup.
Qed.

(** C5 (amended).  After the Requests are processed the tick broadcasts
    exactly one status payload, the last call of the tick, of the shape
    [{ "type": "status", "data": { "simconnect": <bool> } }] with the
    connectivity of the provider; every call before it is a [Send]. *)
Theorem OnDataReady_status (app : App) :
  exists sends,
    socketCalls (OnDataReady app)
    = socketCalls app ++ sends
      ++ [Broadcast
            (<["data" := FObject
                           {["simconnect" := GoBool (IsConnected (mate app))]}]>
               {["type" := FScalar (GoString "status")]})]
    ∧ Forall isSend sends.
Proof.
  eexists. split.
  - by destruct (OnDataReady_calls app) as (_ & _ & _ & ->).
  - apply Forall_forall. intros call Hin.
    apply tickSends_elem in Hin as (r & k & _ & Hs).
    unfold sendOf in Hs. destruct (encodableVars _); [|done].
    injection Hs as <-. by eexists _, _.
Qed.

(** C10.  A subscription whose value is reported found but is nil, or is
    of a data type outside the handled ones, stores nothing: the mapping of
    the tick is the very one built when the provider reports that value as
    not found, and no entry stands under its alias unless another
    subscription of the same alias supplies one. *)
Theorem unhandled_like_not_found (m m' : SimMate)
    (entries : list (DWord * Var)) (defineID : DWord) :
  (SimVarValueAndDataType m defineID).2 = true ->
  (SimVarValueAndDataType m defineID).1.1 = None
  ∨ (SimVarValueAndDataType m defineID).1.2 ∉ handledTypes ->
  (SimVarValueAndDataType m' defineID).2 = false ->
  (forall d, d ≠ defineID ->
     SimVarValueAndDataType m' d = SimVarValueAndDataType m d) ->
  readVar m defineID = None
  ∧ collectVars m entries = collectVars m' entries
  ∧ forall alias,
      (forall kv, kv ∈ entries -> Moniker kv.2 = alias -> kv.1 = defineID) ->
      collectVars m entries !! alias = None.
Proof.
  intros Hok Hbad Hnot Hsame.
  assert (Hnone : readVar m defineID = None).
  { unfold readVar. rewrite Hok. simpl.
    destruct Hbad as [->|Hty]; [done|].
    destruct (_.1.1); [|done]. by apply convertValue_None. }
  assert (Hnone' : readVar m' defineID = None).
  { unfold readVar. by rewrite Hnot. }
  assert (Hread : forall d, readVar m d = readVar m' d).
  { intros d. destruct (decide (d = defineID)) as [->|Hne]; [congruence|].
    unfold readVar. by rewrite Hsame. }
  split; [done|]. split.
  - induction entries as [|kv l IH] using rev_ind; [done|].
    rewrite !collectVars_snoc, IH. unfold collectVar. by rewrite Hread.
  - intros alias Honly.
    destruct (collectVars m entries !! alias) as [x|] eqn:E; [|done].
    destruct (collectVars_sound _ _ _ _ E) as (kv & Hin & Ha & Hr).
    rewrite (Honly kv Hin Ha) in Hr. congruence.
Qed.

(** *** Registering again *)

Lemma registerEntries_vars (raw : list (gmap string string)) (app : App)
    (request : Request) (defineID : DWord) (v : Var) :
  Vars (foldl registerEntry (app, request) raw).2 !! defineID = Some v ->
  Moniker v ∈ monikers raw ∨ Vars request !! defineID = Some v.
Proof.
  revert app request. induction raw as [|value raw IH]; intros app request.
  - simpl. by right.
  - simpl. rewrite registerEntry_eq. simpl. intros Hv.
    destruct (IH _ _ Hv) as [Hin|Hl].
    + left. apply (elem_of_cons (monikers raw)). by right.
    + simpl in Hl. rewrite lookup_insert in Hl. case_decide.
      * injection Hl as <-. left. apply (elem_of_cons (monikers raw)).
        by left.
      * by right.
Qed.

(** C3.  When a client registers again, the payloads addressed to it on the
    following tick are built from the new Request alone: each is the
    simvars message with the meta of the new register message, and an alias
    that the new message does not list is absent from its data, whatever
    the client had subscribed before. *)
Theorem reregister_replaces (app : App) (msg : Message)
    (raw : list (gmap string string)) (connID : string)
    (buf : gmap string Field) :
  Send connID buf
  ∈ emitted (handleRegisterMessage msg raw connID app)
            (OnDataReady (handleRegisterMessage msg raw connID app)) ->
  exists data,
    buf = simvarsMsg (Meta_ msg) data
    ∧ forall alias, alias ∉ monikers raw -> data !! alias = None.
Proof.
  set (app1 := handleRegisterMessage msg raw connID app).
  rewrite emitted_OnDataReady. intros Hin.
  apply elem_of_app in Hin as [Hin|Hin];
    [|by apply list_elem_of_singleton in Hin].
  apply tickSends_elem in Hin as (r & k & Hr & Hs).
  unfold sendOf in Hs. simpl in Hs.
  destruct (encodableVars _); [|done]. injection Hs as Hc <-.
  destruct (handleRegisterMessage_requests msg raw connID app)
    as (request & Hcid & Hmeta & Hreq & Hrs).
  fold app1 in Hrs. rewrite Hrs in Hr.
  apply elem_of_app in Hr as [Hr|Hr].
  { apply list_elem_of_filter in Hr as [Hne _]. done. }
  apply list_elem_of_singleton in Hr as ->.
  exists (dataOf (mate app1) k request). split; [by rewrite Hmeta|].
  intros alias Hnot.
  destruct (dataOf (mate app1) k request !! alias) as [x|] eqn:E; [|done].
  destruct (dataOf_payloadData (mate app1) k request) as (Hsound & _).
  destruct (Hsound _ _ E) as (d & v & Hv & Ha & _).
  rewrite Hreq in Hv. apply registerEntries_vars in Hv as [Hin|Hl].
  - by rewrite Ha in Hin.
  - simpl in Hl. by rewrite lookup_empty in Hl.
Qed.

End Tick.

(** ** The control dispatcher *)

Section Dispatcher.
Context `{SC : SimConnect} `{RT : GoRuntime}.

Lemma mateSetSimObjectData_calls (app : App) (name unit : string)
    (value : float64) (typ : DWord) :
  mateCalls (mateSetSimObjectData app name unit value typ).2
  = mateCalls app ++ [CallSetSimObjectData name unit value typ]
  ∧ requestManager (mateSetSimObjectData app name unit value typ).2
    = requestManager app
  ∧ socketCalls (mateSetSimObjectData app name unit value typ).2
    = socketCalls app.
Proof.
  unfold mateSetSimObjectData. by destruct (SetSimObjectData _ _ _ _ _).
Qed.









(** C6.  A teleport message that carries latitude, longitude, altitude,
    heading and airspeed makes the dispatcher issue exactly seven writes, and
    nothing else: PLANE LATITUDE, PLANE LONGITUDE, PLANE ALTITUDE, PLANE
    HEADING DEGREES TRUE and AIRSPEED TRUE with the values of the message,
    then PLANE BANK DEGREES and PLANE PITCH DEGREES with 0. *)
Theorem teleport_seven_writes (msg : Message) (app : App)
    (latitude longitude altitude heading airspeed : float64) :
  Data msg !! "latitude" = Some (JNumber latitude) ->
  Data msg !! "longitude" = Some (JNumber longitude) ->
  Data msg !! "altitude" = Some (JNumber altitude) ->
  Data msg !! "heading" = Some (JNumber heading) ->
  Data msg !! "airspeed" = Some (JNumber airspeed) ->
  exists app',
    handleTeleportMessage msg app = Ok app'
    ∧ mateCalls app'
      = mateCalls app
        ++ teleportCalls latitude longitude altitude heading airspeed
    ∧ length (teleportCalls latitude longitude altitude heading airspeed)
      = 7%nat
    ∧ requestManager app' = requestManager app
    ∧ socketCalls app' = socketCalls app.
Proof.
  intros H1 H2 H3 H4 H5. unfold handleTeleportMessage.
  rewrite H1, H2, H3, H4, H5. simpl. eexists. split; [reflexivity|].
  repeat match goal with
         | |- context [mateSetSimObjectData ?a ?n ?u ?v ?t] =>
             destruct (mateSetSimObjectData_calls a n u v t) as (-> & -> & ->)
         end.
  repeat rewrite <- app_assoc. done.
Qed.

End Dispatcher.

(** ** Connecting *)

Lemma wrap64_small (z : Z) :
  - 2 ^ 63 <= z < 2 ^ 63 -> wrap64 z = z.
Proof. intros Hz. unfold wrap64. rewrite Z.mod_small; lia. Qed.

Lemma durationOf_small (seconds : Z) :
  -9223372036 <= seconds <= 9223372036 ->
  durationOf seconds = Second * seconds.
Proof.
  intros Hs. unfold durationOf. apply wrap64_small. unfold Second. lia.
Qed.

Lemma durationOf_retry : durationOf connectRetrySeconds = Second.
Proof. reflexivity. Qed.

(** The loop, from the tick numbered [count]: it returns, after one
    attempt per tick up to the timeout, each a call of [Open] with the
    name. *)
Lemma connectLoop_returns (env : ConnectEnv) (name : string)
    (timeoutSeconds : Z) (fuel : nat) :
  forall count,
    0 <= count ->
    Second * count <= Z.max 0 (durationOf timeoutSeconds) ->
    Z.max 0 (durationOf timeoutSeconds)
    < Second * (count + Z.of_nat fuel) ->
    exists r,
      connectLoop env name timeoutSeconds fuel (Second * count) count
        (replicate (Z.to_nat count) name) = Some r
      ∧ count <= attempts r
      ∧ Second * attempts r <= Z.max 0 (durationOf timeoutSeconds)
      ∧ elapsed r <= Z.max 0 (durationOf timeoutSeconds)
      ∧ opened r = replicate (Z.to_nat (attempts r)) name
      ∧ (forall j, count < j < attempts r -> Open env j = false)
      ∧ match err r with
        | None =>
            count < attempts r ∧ Open env (attempts r) = true
            ∧ elapsed r = Second * attempts r
        | Some e =>
            e = CouldNotOpen timeoutSeconds
            ∧ elapsed r = Z.max 0 (durationOf timeoutSeconds)
            ∧ Z.max 0 (durationOf timeoutSeconds)
              <= Second * (attempts r + 1)
            ∧ (count < attempts r -> Open env (attempts r) = false)
        end.
Proof.
  set (D := Z.max 0 (durationOf timeoutSeconds)).
  induction fuel as [|fuel IH]; intros count Hpos Hnow Hfuel;
    [unfold Second in *; lia|].
  cbn [connectLoop]. unfold selectCase. rewrite durationOf_retry. fold D.
  assert (Hsnoc : replicate (Z.to_nat count) name ++ [name]
                  = replicate (Z.to_nat (count + 1)) name).
  { replace (Z.to_nat (count + 1)) with (Z.to_nat count + 1)%nat by lia.
    by rewrite replicate_add. }
  assert (Hnext : Second * count + Second = Second * (count + 1))
    by (unfold Second; lia).
  assert (Htick :
    Second * (count + 1) <= D ->
    exists r,
      (if Open env (count + 1)
       then Some {| err := None; attempts := count + 1;
                    elapsed := Second * count + Second;
                    opened := replicate (Z.to_nat count) name ++ [name] |}
       else connectLoop env name timeoutSeconds fuel
              (Second * count + Second) (count + 1)
              (replicate (Z.to_nat count) name ++ [name])) = Some r
      ∧ count <= attempts r
      ∧ Second * attempts r <= D
      ∧ elapsed r <= D
      ∧ opened r = replicate (Z.to_nat (attempts r)) name
      ∧ (forall j, count < j < attempts r -> Open env j = false)
      ∧ match err r with
        | None =>
            count < attempts r ∧ Open env (attempts r) = true
            ∧ elapsed r = Second * attempts r
        | Some e =>
            e = CouldNotOpen timeoutSeconds
            ∧ elapsed r = D
            ∧ D <= Second * (attempts r + 1)
            ∧ (count < attempts r -> Open env (attempts r) = false)
        end).
  { intros Hle. rewrite Hsnoc, Hnext.
    destruct (Open env (count + 1)) eqn:Ho.
    - eexists. split; [reflexivity|]. cbn [err elapsed attempts opened].
      repeat split; try done; lia.
    - destruct (IH (count + 1))
        as (r & Hr & Ha & Hb & Ht & Hop & Hearlier & Herr);
        [lia | lia | unfold Second in *; lia |].
      exists r. split; [done|]. split; [lia|]. split; [done|].
      split; [done|]. split; [done|]. split.
      + intros j Hj. destruct (decide (j = count + 1)) as [->|Hne]; [done|].
        apply Hearlier. lia.
      + destruct (err r) as [e|].
        * destruct Herr as (He & Hel & Hup & Hlast).
          repeat split; try done.
          intros _. destruct (decide (attempts r = count + 1)) as [->|Hne];
            [done|]. apply Hlast. lia.
        * destruct Herr as (Hlt & Hlast & Hel).
          repeat split; try done. lia. }
  destruct (Z.ltb_spec D (Second * count + Second)) as [Hlt|Hge].
  - eexists. split; [reflexivity|]. cbn [err elapsed attempts opened].
    repeat split; try done; try lia.
  - destruct (Z.ltb_spec (Second * count + Second) D) as [Hlt'|Hge'].
    + apply Htick. lia.
    + destruct (selectBoth env (Second * count + Second)).
      * apply Htick. lia.
      * eexists. split; [reflexivity|]. cbn [err elapsed attempts opened].
        repeat split; try done; try lia.
Qed.

(** C9.  When every connect attempt fails, [connect] returns the timeout
    error when the timer fires and does not retry forever: whatever [select]
    picks when both channels are ready, enough fuel makes the loop return,
    at the time of the timeout, after one call of [Open] per tick that
    precedes the timeout (the attempt at the instant of the timeout may or
    may not be made).  For a timeout of 0 to 9223372036 seconds, whose
    duration does not wrap, that is after [timeoutSeconds] seconds and
    [timeoutSeconds - 1] or [timeoutSeconds] calls of [Open]: with the retry
    period of 1 second and a timeout of 3 seconds, 2 or 3 calls, not more
    than 4. *)
Theorem connect_times_out (choice : Z -> SelectCase) (name : string)
    (timeoutSeconds : Z) (fuel : nat) :
  Z.max 0 (durationOf timeoutSeconds) < Second * Z.of_nat fuel ->
  exists r,
    connect (alwaysFails choice) name timeoutSeconds fuel = Some r
    ∧ err r = Some (CouldNotOpen timeoutSeconds)
    ∧ elapsed r = Z.max 0 (durationOf timeoutSeconds)
    ∧ opened r = replicate (Z.to_nat (attempts r)) name
    ∧ 0 <= attempts r
    ∧ Second * attempts r <= Z.max 0 (durationOf timeoutSeconds)
      <= Second * (attempts r + 1)
    ∧ (0 <= timeoutSeconds <= 9223372036 ->
       elapsed r = Second * timeoutSeconds
       ∧ timeoutSeconds - 1 <= attempts r <= timeoutSeconds
       ∧ (timeoutSeconds - 1 <= Z.of_nat (length (opened r))
          <= timeoutSeconds))
    ∧ (timeoutSeconds = 3 ->
       (2 <= length (opened r) <= 3)%nat ∧ (length (opened r) <= 4)%nat).
Proof.
  intros Hfuel. unfold connect.
  destruct (connectLoop_returns (alwaysFails choice) name timeoutSeconds
              fuel 0)
    as (r & Hr & Ha & Hb & Ht & Hop & _ & Herr);
    [lia | unfold Second; lia | exact Hfuel |].
  change (Second * 0) with 0 in Hr. change (Z.to_nat 0) with 0%nat in Hr.
  exists r. split; [exact Hr|].
  destruct (err r) as [e|] eqn:He.
  - destruct Herr as (-> & Hel & Hup & _).
    assert (Hlen : length (opened r) = Z.to_nat (attempts r))
      by (by rewrite Hop, length_replicate).
    split; [done|]. split; [done|]. split; [done|]. split; [done|].
    split; [done|]. split.
    + intros Hsmall. rewrite durationOf_small in * by lia.
      unfold Second in *. repeat split; lia.
    + intros ->. rewrite durationOf_small in * by lia.
      unfold Second in *. lia.
  - destruct Herr as (_ & Ho & _). simpl in Ho. done.
Qed.

(** * Executions *)

(** C2, as stated, fails.  Client A holds a live Request whose only
    variable is found, of type Float64, with value NaN: [json.Marshal]
    returns an error and the tick sends nothing to A, only the status
    broadcast is made. *)
Lemma nan_value_suppresses_payload :
  ClientID <$> Requests (requestManager nanAirspeed) = ["A"]
  ∧ SimVarValueAndDataType (mate nanAirspeed) 1
    = (Some (GoFloat64 S754_nan), DataTypeFloat64, true)
  ∧ socketCalls (OnDataReady nanAirspeed) = [Broadcast (statusMsg true)].
Proof. vm_compute. repeat split; reflexivity. Qed.

(** C5, as stated, fails: the data of the status payload has the member
    ["simconnect"], not ["connected"]. *)
Lemma status_payload_names_simconnect :
  socketCalls (OnDataReady freshApp) = [Broadcast (statusMsg true)]
  ∧ statusMsg true ≠ statusMsg_spec true
  ∧ statusMsg true ≠ statusMsg_spec false
  ∧ statusMsg true !! "data"
    = Some (FObject {["simconnect" := GoBool true]}).
Proof.
  split; [vm_compute; reflexivity|].
  split; [|split; [|reflexivity]].
  - intros H. apply (f_equal (fun m => m !! "data")) in H.
    vm_compute in H. discriminate.
  - intros H. apply (f_equal (fun m => m !! "data")) in H.
    vm_compute in H. discriminate.
Qed.


(** C3 at work: A had subscribed ["spd"] and registers again for ["alt"]
    only; the payload of the next tick carries ["alt"] and no ["spd"],
    although the provider still holds a value for the airspeed. *)
Lemma reregister_replaces_witness :
  exists data,
    simvarsMsg "panel2" {["alt" := GoFloat64 (num 1200)]}
    = simvarsMsg (Meta_ registerAlt) data
    ∧ forall alias, alias ∉ monikers altEntries -> data !! alias = None.
Proof.
  apply (reregister_replaces registeredSpd registerAlt altEntries "A").
  vm_compute. constructor.
Defined.


(** C6 at work, on the teleport of the specification's scenario. *)
Lemma teleport_seven_writes_witness :
  exists app',
    handleTeleportMessage teleportZurich freshApp = Ok app'
    ∧ mateCalls app'
      = mateCalls freshApp
        ++ teleportCalls (num 47) (num 8) (num 1200) (num 90) (num 120)
    ∧ length (teleportCalls (num 47) (num 8) (num 1200) (num 90) (num 120))
      = 7%nat
    ∧ requestManager app' = requestManager freshApp
    ∧ socketCalls app' = socketCalls freshApp.
Proof.
  apply (teleport_seven_writes teleportZurich freshApp);
    reflexivity.
Defined.

(** C7 at work: no client C is registered. *)
Lemma removeRequests_registry_witness :
  removeRequests "C" knotsAndFeet = knotsAndFeet.
Proof.
  apply (removeRequests_registry "C" knotsAndFeet).
  apply Forall_forall. vm_compute. repeat constructor; discriminate.
Defined.

(** C9 at work: a timeout of 3 seconds, the ticker winning the tie. *)
Lemma connect_times_out_witness :
  exists r,
    connect (alwaysFails (fun _ => CaseConnectTicker)) "GoPilot" 3 4 = Some r
    ∧ err r = Some (CouldNotOpen 3)
    ∧ elapsed r = Z.max 0 (durationOf 3)
    ∧ opened r = replicate (Z.to_nat (attempts r)) "GoPilot"
    ∧ 0 <= attempts r
    ∧ Second * attempts r <= Z.max 0 (durationOf 3)
      <= Second * (attempts r + 1)
    ∧ (0 <= 3 <= 9223372036 ->
       elapsed r = Second * 3
       ∧ 3 - 1 <= attempts r <= 3
       ∧ (3 - 1 <= Z.of_nat (length (opened r)) <= 3))
    ∧ (3 = 3 ->
       (2 <= length (opened r) <= 3)%nat ∧ (length (opened r) <= 4)%nat).
Proof.
  apply (connect_times_out (fun _ => CaseConnectTicker) "GoPilot" 3 4).
  vm_compute. reflexivity.
Defined.

(** C10 at work: the airspeed is reported found with a nil value. *)
Lemma unhandled_like_not_found_witness :
  readVar (mate nilAirspeed) 1 = None
  ∧ collectVars (mate nilAirspeed)
      [(1%N, {| Name := "AIRSPEED TRUE"; Moniker := "spd" |})]
    = collectVars (mate freshApp)
        [(1%N, {| Name := "AIRSPEED TRUE"; Moniker := "spd" |})]
  ∧ forall alias,
      (forall kv,
         kv ∈ [(1%N, {| Name := "AIRSPEED TRUE"; Moniker := "spd" |})] ->
         Moniker kv.2 = alias -> kv.1 = 1%N) ->
      collectVars (mate nilAirspeed)
        [(1%N, {| Name := "AIRSPEED TRUE"; Moniker := "spd" |})] !! alias
      = None.
Proof.
  apply (unhandled_like_not_found (mate nilAirspeed) (mate freshApp)).
  - reflexivity.
  - left. reflexivity.
  - reflexivity.
  - intros d Hd. simpl. unfold gwRead. simpl.
    by rewrite lookup_insert_ne, lookup_empty.
Defined.

(** * Further properties of the code *)

(** ** Control messages and the registries *)

Section DispatcherEffects.
Context `{SC : SimConnect} `{RT : GoRuntime}.

(** X1.  A setdata message with a string name, a string unit and a numeric
    value makes exactly one write, of that value as a Float64, whether or
    not the provider reports an error for it; the registry and the socket
    are left alone. *)
Theorem setdata_single_write (msg : Message) (app : App)
    (name unit : string) (value : float64) :
  Data msg !! "name" = Some (JString name) ->
  Data msg !! "unit" = Some (JString unit) ->
  Data msg !! "value" = Some (JNumber value) ->
  exists app',
    handleSetDataMessage msg app = Ok app'
    ∧ mateCalls app'
      = mateCalls app
        ++ [CallSetSimObjectData name unit value DataTypeFloat64]
    ∧ mate app'
      = (SetSimObjectData (mate app) name unit value DataTypeFloat64).2
    ∧ requestManager app' = requestManager app
    ∧ socketCalls app' = socketCalls app.
Proof.
  intros H1 H2 H3. unfold handleSetDataMessage. rewrite H1, H2, H3. simpl.
  eexists. split; [reflexivity|].
  unfold mateSetSimObjectData. by destruct (SetSimObjectData _ _ _ _ _).
Qed.

Lemma removedIDs_app (l k : list MateCall) :
  removedIDs (l ++ k) = removedIDs l ++ removedIDs k.
Proof. unfold removedIDs. apply omap_app. Qed.

Lemma removedIDs_addCalls (raw : list (gmap string string)) :
  removedIDs (addCall <$> raw) = [].
Proof. induction raw as [|value raw IH]; [done|]. exact IH. Qed.

(** X2.  A register message releases nothing and answers nothing: it issues
    one [AddSimVar] per element of its list and no other provider call, so
    the variables of a Request the client held before stay registered, and
    it makes no socket call. *)
Theorem register_releases_nothing (msg : Message)
    (raw : list (gmap string string)) (connID : string) (app : App) :
  exists calls,
    mateCalls (handleRegisterMessage msg raw connID app)
    = mateCalls app ++ calls
    ∧ length calls = length raw
    ∧ Forall isAddSimVar calls
    ∧ removedIDs (mateCalls (handleRegisterMessage msg raw connID app))
      = removedIDs (mateCalls app)
    ∧ socketCalls (handleRegisterMessage msg raw connID app)
      = socketCalls app.
Proof.
  destruct (registerEntries_fold raw app (NewRequest connID (Meta_ msg)))
    as (_ & Hs & Hc & _).
  exists (addCall <$> raw). unfold handleRegisterMessage. simpl.
  rewrite Hc, Hs. split; [done|]. split; [by rewrite length_fmap|].
  split; [|split; [|done]].
  - apply Forall_fmap, Forall_forall. intros value _.
    by eexists _, _, _.
  - by rewrite removedIDs_app, removedIDs_addCalls, app_nil_r.
Qed.

Lemma handleSocketEvent_socketCalls (event : SocketEvent) (app app' : App) :
  handleSocketEvent event app = Ok app' -> socketCalls app' = socketCalls app.
Proof.
  destruct event as [uuid|uuid|uuid msg raw]; simpl.
  - by intros [= <-].
  - intros [= <-]. apply removeRequests_socketCalls.
  - repeat case_decide.
    + intros [= <-]. unfold handleRegisterMessage. simpl.
      by destruct (registerEntries_fold raw app
                     (NewRequest uuid (Meta_ msg))) as (_ & -> & _).
    + intros [= <-]. apply removeRequests_socketCalls.
    + unfold handleSetDataMessage.
      destruct (assertString _) as [n|]; [simpl|done].
      destruct (assertString _) as [u|]; [simpl|done].
      destruct (assertFloat64 _) as [f|]; [simpl|done].
      intros [= <-].
      by destruct (mateSetSimObjectData_calls app n u f DataTypeFloat64)
        as (_ & _ & ->).
    + unfold handleTeleportMessage.
      destruct (assertFloat64 _) as [f1|]; [simpl|done].
      destruct (assertFloat64 _) as [f2|]; [simpl|done].
      destruct (assertFloat64 _) as [f3|]; [simpl|done].
      destruct (assertFloat64 _) as [f4|]; [simpl|done].
      destruct (assertFloat64 _) as [f5|]; [simpl|done].
      intros [= <-].
      repeat match goal with
             | |- context [mateSetSimObjectData ?a ?n ?u ?v ?t] =>
                 destruct (mateSetSimObjectData_calls a n u v t)
                   as (_ & _ & ->)
             end.
      done.
    + by intros [= <-].
Qed.

(** X3.  The dispatcher never writes to the socket: whatever events it
    handles, no [Send] and no [Broadcast] is made; a client gets no reply
    to a control message. *)
Theorem dispatcher_never_replies (events : list SocketEvent)
    (app app' : App) :
  handleSocketMessages events app = Ok app' ->
  socketCalls app' = socketCalls app.
Proof.
  revert app. induction events as [|event events IH]; intros app; simpl.
  - by intros [= <-].
  - destruct (handleSocketEvent event app) as [app1|] eqn:E; [simpl|done].
    intros H. rewrite (IH _ H). by apply handleSocketEvent_socketCalls in E.
Qed.

Lemma handleSocketEvent_keepsRegistry (event : SocketEvent)
    (app app' : App) :
  keepsRegistry event ->
  handleSocketEvent event app = Ok app' ->
  requestManager app' = requestManager app.
Proof.
  destruct event as [uuid|uuid|uuid msg raw]; simpl; [|done|].
  - by intros _ [= <-].
  - intros [Hr Hd]. rewrite decide_False by done.
    rewrite (decide_False (P := Type_ msg = "deregister")) by done.
    repeat case_decide.
    + unfold handleSetDataMessage.
      destruct (assertString _) as [n|]; [simpl|done].
      destruct (assertString _) as [u|]; [simpl|done].
      destruct (assertFloat64 _) as [f|]; [simpl|done].
      intros [= <-].
      by destruct (mateSetSimObjectData_calls app n u f DataTypeFloat64)
        as (_ & -> & _).
    + unfold handleTeleportMessage.
      destruct (assertFloat64 _) as [f1|]; [simpl|done].
      destruct (assertFloat64 _) as [f2|]; [simpl|done].
      destruct (assertFloat64 _) as [f3|]; [simpl|done].
      destruct (assertFloat64 _) as [f4|]; [simpl|done].
      destruct (assertFloat64 _) as [f5|]; [simpl|done].
      intros [= <-].
      repeat match goal with
             | |- context [mateSetSimObjectData ?a ?n ?u ?v ?t] =>
                 destruct (mateSetSimObjectData_calls a n u v t)
                   as (_ & -> & _)
             end.
      done.
    + by intros [= <-].
Qed.

(** X4.  Only register messages, deregister messages and disconnections
    change the registry: a run of events of any other kind (connections,
    setdata, teleport, unknown types) that is handled without panic leaves
    every Request as it was. *)
Theorem registry_changed_only_by_registration (events : list SocketEvent)
    (app app' : App) :
  Forall keepsRegistry events ->
  handleSocketMessages events app = Ok app' ->
  requestManager app' = requestManager app.
Proof.
  revert app. induction events as [|event events IH]; intros app Hall; simpl.
  - by intros [= <-].
  - apply Forall_cons in Hall as [Hev Hall].
    destruct (handleSocketEvent event app) as [app1|] eqn:E; [simpl|done].
    intros H. rewrite (IH _ Hall H).
    by apply (handleSocketEvent_keepsRegistry event).
Qed.

End DispatcherEffects.

(** ** Releasing and the tick *)

Section TickEffects.
Context `{SC : SimConnect} `{RT : GoRuntime}.

(** X6.  [removeRequests] only releases: every provider call it makes is a
    [RemoveSimVar] for a define ID that a Request of that client holds; it
    adds no variable, writes no value and makes no socket call; and it
    shortens the registry by the number of Requests the client had. *)
Theorem removeRequests_only_releases (connID : string) (app : App) :
  exists ids,
    mateCalls (removeRequests connID app)
    = mateCalls app ++ (CallRemoveSimVar <$> ids)
    ∧ (forall defineID, defineID ∈ ids ->
         exists r, r ∈ Requests (requestManager app)
                   ∧ ClientID r = connID
                   ∧ is_Some (Vars r !! defineID))
    ∧ socketCalls (removeRequests connID app) = socketCalls app
    ∧ (length (Requests (requestManager (removeRequests connID app)))
       + length (filter (fun r => ClientID r = connID)
                        (Requests (requestManager app)))
       = length (Requests (requestManager app)))%nat.
Proof.
  eexists. split; [apply removeRequests_mateCalls|]. split; [|split].
  - intros defineID Hin.
    apply releasedFrom_elem in Hin as (r & v & Hr & Hv & _).
    apply list_elem_of_filter in Hr as [Hc Hr].
    exists r. by rewrite Hv.
  - apply removeRequests_socketCalls.
  - rewrite removeRequests_requestManager. simpl.
    generalize (Requests (requestManager app)) as l.
    induction l as [|r l IH]; [done|].
    destruct (decide (ClientID r = connID)) as [E|E].
    + rewrite filter_cons_False by (intros ?; done).
      rewrite (filter_cons_True (fun r => ClientID r = connID)) by done.
      simpl. lia.
    + rewrite filter_cons_True by done.
      rewrite (filter_cons_False (fun r => ClientID r = connID)) by done.
      simpl. lia.
Qed.

(** X7.  The registry that two calls of [removeRequests] leave does not
    depend on their order. *)
Theorem removeRequests_registry_commutes (a b : string) (app : App) :
  requestManager (removeRequests a (removeRequests b app))
  = requestManager (removeRequests b (removeRequests a app)).
Proof.
  rewrite !removeRequests_requestManager. simpl. f_equal.
  generalize (Requests (requestManager app)) as l.
  induction l as [|r l IH]; [done|].
  destruct (decide (ClientID r ≠ a)) as [Ha|Ha];
    destruct (decide (ClientID r ≠ b)) as [Hb|Hb];
    repeat first [rewrite filter_cons_True by done
                 |rewrite filter_cons_False by done];
    by rewrite ?IH.
Qed.

(** X8.  A tick only reads: it leaves the registry and the provider as they
    are and issues no provider call. *)
Theorem tick_only_reads (app : App) :
  requestManager (OnDataReady app) = requestManager app
  ∧ mate (OnDataReady app) = mate app
  ∧ mateCalls (OnDataReady app) = mateCalls app.
Proof. by destruct (OnDataReady_calls app) as (-> & -> & -> & _). Qed.

Lemma collectVars_lookup_unique (m : SimMate) (vars : gmap DWord Var)
    (n : nat) (alias : string) (x : Scalar) :
  uniqueMonikers vars ->
  collectVars m (rangeVars n vars) !! alias = Some x
  <-> exists defineID v,
        vars !! defineID = Some v ∧ Moniker v = alias
        ∧ readVar m defineID = Some x.
Proof.
  intros Huniq. split.
  - intros Hl. destruct (collectVars_sound _ _ _ _ Hl) as ([d v] & Hin & Hk).
    exists d, v. split; [by apply (rangeVars_lookup n) | done].
  - intros (d & v & Hv & <- & Hr).
    destruct (collectVars_present m (rangeVars n vars) (d, v) x) as [y Hy];
      [by apply rangeVars_lookup | done |].
    simpl in Hy. rewrite Hy. f_equal.
    destruct (collectVars_sound _ _ _ _ Hy) as ([d' v'] & Hin & Ha & Hr').
    apply rangeVars_lookup in Hin. simpl in *.
    rewrite (Huniq d' d v' v Hin Hv Ha) in Hr'. congruence.
Qed.

(** With one variable per moniker the mapping does not depend on the order
    of the range. *)
Lemma dataOf_unique (m : SimMate) (request : Request) (n k : nat) :
  uniqueMonikers (Vars request) ->
  dataOf m n request = dataOf m k request.
Proof.
  intros Huniq. unfold dataOf. apply map_eq. intros alias.
  destruct (collectVars m (rangeVars k (Vars request)) !! alias) as [x|] eqn:E.
  - apply collectVars_lookup_unique; [done|].
    by apply (collectVars_lookup_unique m _ k).
  - destruct (collectVars m (rangeVars n (Vars request)) !! alias)
      as [y|] eqn:E'; [|done].
    apply collectVars_lookup_unique in E'; [|done].
    apply (collectVars_lookup_unique m _ k) in E'; [|done]. congruence.
Qed.

Lemma tickSends_unique (m : SimMate) (requests : list Request) (n k : nat) :
  Forall (fun r => uniqueMonikers (Vars r)) requests ->
  tickSends m n requests = tickSends m k requests.
Proof.
  intros Hall. revert n k. induction Hall as [|r l Hr Hall IH]; intros n k.
  - done.
  - simpl. by rewrite (dataOf_unique m r n k), (IH (S n) (S k)).
Qed.

(** X9.  When no Request holds two variables under one moniker, two ticks
    in a row, with nothing happening in between, make the same socket
    calls, whatever order each range takes. *)
Theorem tick_repeats (app : App) :
  Forall (fun r => uniqueMonikers (Vars r)) (Requests (requestManager app)) ->
  emitted (OnDataReady app) (OnDataReady (OnDataReady app))
  = emitted app (OnDataReady app).
Proof.
  intros Hall. rewrite !emitted_OnDataReady.
  destruct (OnDataReady_calls app) as (-> & -> & _).
  by rewrite (tickSends_unique _ _ (ranges (OnDataReady app)) (ranges app)).
Qed.

Lemma collectVars_none (m : SimMate) (entries : list (DWord * Var)) :
  (forall kv, kv ∈ entries -> readVar m kv.1 = None) ->
  collectVars m entries = ∅.
Proof.
  intros Hnone. apply map_eq. intros alias. rewrite lookup_empty.
  destruct (collectVars m entries !! alias) as [x|] eqn:E; [|done].
  destruct (collectVars_sound _ _ _ _ E) as (kv & Hin & _ & Hr).
  rewrite (Hnone kv Hin) in Hr. done.
Qed.

(** X10.  A Request none of whose variables has a value that is found,
    non-nil and of a handled type (a Request without variables, for one)
    still gets its payload on every tick, with an empty data object. *)
Theorem tick_sends_empty_data (app : App) (request : Request) :
  request ∈ Requests (requestManager app) ->
  (forall defineID v, Vars request !! defineID = Some v ->
     readVar (mate app) defineID = None) ->
  Send (ClientID request) (simvarsMsg (Meta request) ∅)
  ∈ emitted app (OnDataReady app).
Proof.
  intros Hin Hnone. rewrite emitted_OnDataReady.
  apply elem_of_app. left. apply (tickSends_intro _ _ _ request); [done|].
  intros k. unfold sendOf, dataOf. simpl.
  rewrite collectVars_none; [done|].
  intros [d v] Hkv. apply rangeVars_lookup in Hkv. by apply (Hnone d v).
Qed.

(** X11.  After [removeRequests] for a client, the next tick sends no
    payload addressed to that client. *)
Theorem no_payload_after_removeRequests (connID : string) (app : App)
    (buf : gmap string Field) :
  Send connID buf
  ∉ emitted (removeRequests connID app)
            (OnDataReady (removeRequests connID app)).
Proof.
  rewrite emitted_OnDataReady. intros Hin.
  apply elem_of_app in Hin as [Hin|Hin];
    [|by apply list_elem_of_singleton in Hin].
  apply tickSends_elem in Hin as (r & k & Hr & Hs).
  rewrite removeRequests_requestManager in Hr. simpl in Hr.
  apply list_elem_of_filter in Hr as [Hne _].
  unfold sendOf in Hs. simpl in Hs.
  destruct (encodableVars _); [|done]. by injection Hs as Hc _.
Qed.

(** X12.  [BroadcastStatusMessage] never returns an error: the status
    message can always be encoded, and exactly one [Broadcast] is made, with
    nothing else changed. *)
Theorem BroadcastStatusMessage_succeeds (app : App) :
  (BroadcastStatusMessage app).1 = false
  ∧ socketCalls (BroadcastStatusMessage app).2
    = socketCalls app ++ [Broadcast (statusMsg (IsConnected (mate app)))]
  ∧ requestManager (BroadcastStatusMessage app).2 = requestManager app
  ∧ mate (BroadcastStatusMessage app).2 = mate app
  ∧ mateCalls (BroadcastStatusMessage app).2 = mateCalls app.
Proof.
  unfold BroadcastStatusMessage. by rewrite json_Marshal_statusMsg.
Qed.

End TickEffects.

(** ** Connecting, whatever the simulator does *)

(** X13.  Whatever the simulator answers and whatever [select] picks,
    [connect] returns, given fuel for one iteration per tick up to the
    timeout: every attempt is one call of [Open] with the name, made at a
    tick that does not come after the timeout, and it returns no later than
    the timeout.  When it returns nil the last attempt succeeded, every
    earlier one failed, and it returns at the tick of that attempt; when it
    returns the error every attempt failed and it returns at the timeout. *)
Theorem connect_returns (env : ConnectEnv) (name : string)
    (timeoutSeconds : Z) (fuel : nat) :
  Z.max 0 (durationOf timeoutSeconds) < Second * Z.of_nat fuel ->
  exists r,
    connect env name timeoutSeconds fuel = Some r
    ∧ 0 <= attempts r
    ∧ Second * attempts r <= Z.max 0 (durationOf timeoutSeconds)
    ∧ elapsed r <= Z.max 0 (durationOf timeoutSeconds)
    ∧ opened r = replicate (Z.to_nat (attempts r)) name
    ∧ (forall j, 0 < j < attempts r -> Open env j = false)
    ∧ match err r with
      | None =>
          0 < attempts r ∧ Open env (attempts r) = true
          ∧ elapsed r = Second * attempts r
      | Some e =>
          e = CouldNotOpen timeoutSeconds
          ∧ elapsed r = Z.max 0 (durationOf timeoutSeconds)
          ∧ Z.max 0 (durationOf timeoutSeconds)
            <= Second * (attempts r + 1)
          ∧ (0 < attempts r -> Open env (attempts r) = false)
      end.
Proof.
  intros Hfuel. unfold connect.
  apply (connectLoop_returns env name timeoutSeconds fuel 0);
    [lia | unfold Second; lia | exact Hfuel].
Qed.

Lemma connectLoop_first_success (env : ConnectEnv) (name : string)
    (timeoutSeconds k : Z) (fuel : nat) :
  Open env k = true ->
  Second * k < durationOf timeoutSeconds
  ∨ (Second * k = durationOf timeoutSeconds
     ∧ selectBoth env (Second * k) = CaseConnectTicker) ->
  forall count,
    0 <= count < k ->
    (forall j, count < j < k -> Open env j = false) ->
    (Z.to_nat (k - count) <= fuel)%nat ->
    connectLoop env name timeoutSeconds fuel (Second * count) count
      (replicate (Z.to_nat count) name)
    = Some {| err := None; attempts := k; elapsed := Second * k;
              opened := replicate (Z.to_nat k) name |}.
Proof.
  intros Hk Hrace.
  induction fuel as [|fuel IH]; intros count Hcount Hfail Hfuel; [lia|].
  cbn [connectLoop]. unfold selectCase. rewrite durationOf_retry.
  assert (Hsnoc : replicate (Z.to_nat count) name ++ [name]
                  = replicate (Z.to_nat (count + 1)) name).
  { replace (Z.to_nat (count + 1)) with (Z.to_nat count + 1)%nat by lia.
    by rewrite replicate_add. }
  assert (Hnext : Second * count + Second = Second * (count + 1))
    by (unfold Second; lia).
  assert (Htick :
    (if Open env (count + 1)
     then Some {| err := None; attempts := count + 1;
                  elapsed := Second * count + Second;
                  opened := replicate (Z.to_nat count) name ++ [name] |}
     else connectLoop env name timeoutSeconds fuel
            (Second * count + Second) (count + 1)
            (replicate (Z.to_nat count) name ++ [name]))
    = Some {| err := None; attempts := k; elapsed := Second * k;
              opened := replicate (Z.to_nat k) name |}).
  { rewrite Hsnoc, Hnext. destruct (decide (count + 1 = k)) as [E|E].
    - rewrite E, Hk. done.
    - rewrite Hfail by lia. apply IH; [lia | | lia].
      intros j Hj. apply Hfail. lia. }
  assert (Hk' : Second * (count + 1) <= Second * k)
    by (unfold Second; lia).
  destruct (Z.ltb_spec (Z.max 0 (durationOf timeoutSeconds))
              (Second * count + Second)) as [Hlt|Hge];
    [unfold Second in *; lia|].
  destruct (Z.ltb_spec (Second * count + Second)
              (Z.max 0 (durationOf timeoutSeconds))) as [Hlt'|Hge'];
    [exact Htick|].
  destruct Hrace as [Hlt|[Heq Hpick]]; [unfold Second in *; lia|].
  assert (Hnk : count + 1 = k) by (unfold Second in *; lia).
  rewrite Hnext, Hnk, Hpick. rewrite Hnext, Hnk in Htick. exact Htick.
Qed.

(** X14.  [connect] returns nil at the first attempt that succeeds, at the
    tick of that attempt and after that many calls of [Open], provided that
    tick comes before the timeout, or with it and [select] then takes the
    ticker. *)
Theorem connect_first_success (env : ConnectEnv) (name : string)
    (timeoutSeconds k : Z) (fuel : nat) :
  0 < k ->
  (forall j, 0 < j < k -> Open env j = false) ->
  Open env k = true ->
  Second * k < durationOf timeoutSeconds
  ∨ (Second * k = durationOf timeoutSeconds
     ∧ selectBoth env (Second * k) = CaseConnectTicker) ->
  (Z.to_nat k <= fuel)%nat ->
  connect env name timeoutSeconds fuel
  = Some {| err := None; attempts := k; elapsed := Second * k;
            opened := replicate (Z.to_nat k) name |}.
Proof.
  intros Hpos Hfail Hk Hrace Hfuel. unfold connect.
  apply (connectLoop_first_success env name timeoutSeconds k fuel Hk Hrace 0);
    [lia | exact Hfail | by rewrite Z.sub_0_r].
Qed.

(** X15.  When the duration of the timeout is not positive [connect] gives
    up at once: it returns the error without a single call of [Open], even
    when the simulator would accept the first one.  That is so for a timeout
    of 0 down to -9223372036 seconds, and also for one so large that its
    duration in nanoseconds wraps to a negative number, such as 9223372037
    seconds. *)
Theorem connect_nonpositive_duration (env : ConnectEnv) (name : string)
    (timeoutSeconds : Z) (fuel : nat) :
  (-9223372036 <= timeoutSeconds <= 0 ∨ timeoutSeconds = 9223372037
   ∨ durationOf timeoutSeconds <= 0) ->
  (1 <= fuel)%nat ->
  connect env name timeoutSeconds fuel
  = Some {| err := Some (CouldNotOpen timeoutSeconds);
            attempts := 0; elapsed := 0; opened := [] |}.
Proof.
  intros Ht Hfuel.
  assert (Hd : durationOf timeoutSeconds <= 0).
  { destruct Ht as [Hs|[->|Hd]]; [|by vm_compute|done].
    rewrite durationOf_small by lia. unfold Second. lia. }
  destruct fuel as [|fuel]; [lia|].
  unfold connect. cbn [connectLoop]. unfold selectCase.
  rewrite durationOf_retry.
  replace (Z.max 0 (durationOf timeoutSeconds)) with 0 by lia. reflexivity.
Qed.

(** ** The HTTP handlers *)

Section HttpProperties.
Context `{RS : GoRangeStrings}.

Lemma setHeaders_calls (headers : gmap string string) (w : list HttpCall) :
  exists sets,
    setHeaders headers w = w ++ sets ∧ sets ≡ₚ headerCalls headers.
Proof.
  exists ((fun kv => HeaderSet kv.1 kv.2) <$> rangeStrings headers). split.
  - unfold setHeaders. generalize (rangeStrings headers) as l.
    intros l. revert w. induction l as [|kv l IH]; intros w; simpl.
    + by rewrite app_nil_r.
    + rewrite IH. by rewrite <- app_assoc.
  - unfold headerCalls. by rewrite rangeStrings_perm.
Qed.

Lemma Headers_entries (contentType : string) :
  map_to_list (Headers contentType)
  ≡ₚ [("Content-Type", contentType); ("Expires", "0");
      ("Pragma", "no-cache");
      ("Cache-Control", "no-cache, no-store, must-revalidate");
      ("Access-Control-Allow-Origin", "*")].
Proof.
  unfold Headers.
  repeat (rewrite map_to_list_insert by by simplify_map_eq).
  by rewrite map_to_list_singleton.
Qed.

(** X16.  A generated page is served at its exact path only.  For any
    other path the handler answers [404 Not Found] and does nothing else:
    no configured header is set and the generator is not run.  At the path
    it sets every configured header once, in some order, then writes status
    200, and only then runs the generator. *)
Theorem GeneratedContentHandler_serves (headers : gmap string string)
    (urlPath : string) (generator : list HttpCall -> list HttpCall)
    (path : string) (w : list HttpCall) :
  (path ≠ urlPath ->
   GeneratedContentHandler headers urlPath generator path w
   = w ++ [HttpError "Not Found" 404])
  ∧ (path = urlPath ->
     exists sets,
       sets ≡ₚ headerCalls headers
       ∧ GeneratedContentHandler headers urlPath generator path w
         = generator (w ++ sets ++ [WriteHeader 200])).
Proof.
  unfold GeneratedContentHandler. split; intros Hp.
  - by rewrite decide_True.
  - rewrite decide_False by (intros ?; done).
    destruct (setHeaders_calls headers w) as (sets & -> & Hperm).
    exists sets. split; [done|]. by rewrite <- app_assoc.
Qed.

(** X17.  A static page is served at its exact path only.  For any other
    path the handler answers [404 Not Found] and serves no file.  At the
    path it sets every configured header once, in some order, and then
    hands the file to [http.ServeFile], without writing a status itself. *)
Theorem StaticContentHandler_serves (headers : gmap string string)
    (urlPath filePath path : string) (w : list HttpCall) :
  (path ≠ urlPath ->
   StaticContentHandler headers urlPath filePath path w
   = w ++ [HttpError "Not Found" 404])
  ∧ (path = urlPath ->
     exists sets,
       sets ≡ₚ headerCalls headers
       ∧ StaticContentHandler headers urlPath filePath path w
         = w ++ sets ++ [ServeFile filePath]).
Proof.
  unfold StaticContentHandler. split; intros Hp.
  - by rewrite decide_True.
  - rewrite decide_False by (intros ?; done).
    destruct (setHeaders_calls headers w) as (sets & -> & Hperm).
    exists sets. split; [done|]. by rewrite <- app_assoc.
Qed.

(** X18.  A handler built on [Headers contentType] sets, at its path, five
    headers and no more: the content type given, whatever it is, and the
    four that forbid caching and allow any origin. *)
Theorem Headers_reach_the_response (contentType urlPath : string)
    (generator : list HttpCall -> list HttpCall) (w : list HttpCall) :
  exists sets,
    GeneratedContentHandler (Headers contentType) urlPath generator urlPath w
    = generator (w ++ sets ++ [WriteHeader 200])
    ∧ length sets = 5%nat
    ∧ HeaderSet "Content-Type" contentType ∈ sets
    ∧ HeaderSet "Access-Control-Allow-Origin" "*" ∈ sets
    ∧ HeaderSet "Cache-Control" "no-cache, no-store, must-revalidate" ∈ sets
    ∧ HeaderSet "Pragma" "no-cache" ∈ sets
    ∧ HeaderSet "Expires" "0" ∈ sets.
Proof.
  unfold GeneratedContentHandler. rewrite decide_False by (intros ?; done).
  destruct (setHeaders_calls (Headers contentType) w) as (sets & -> & Hperm).
  exists sets. split; [by rewrite <- app_assoc|].
  unfold headerCalls in Hperm. rewrite Headers_entries in Hperm.
  rewrite Hperm. simpl. split; [done|].
  repeat split; repeat first [by left | right].
Qed.

End HttpProperties.

(** * Further executions *)

(** X1 at work. *)
Lemma setdata_single_write_witness :
  exists app',
    handleSetDataMessage setDataAirspeed freshApp = Ok app'
    ∧ mateCalls app'
      = mateCalls freshApp
        ++ [CallSetSimObjectData "AIRSPEED TRUE" "knot" (num 120)
              DataTypeFloat64]
    ∧ mate app'
      = (SetSimObjectData (mate freshApp) "AIRSPEED TRUE" "knot" (num 120)
           DataTypeFloat64).2
    ∧ requestManager app' = requestManager freshApp
    ∧ socketCalls app' = socketCalls freshApp.
Proof.
  apply (setdata_single_write setDataAirspeed freshApp); reflexivity.
Defined.

(** X3 at work: a register, a setdata and a deregister message. *)
Lemma dispatcher_never_replies_witness :
  socketCalls knotsAndFeetAfterA = socketCalls freshApp.
Proof.
  apply (dispatcher_never_replies
           [SocketEventMessage "A" (message "register" "panel1" ∅)
              [entry "AIRSPEED TRUE" "knot" "float64" "spd"];
            SocketEventMessage "B" (message "register" "panel2" ∅)
              [entry "AIRSPEED TRUE" "feet per second" "float64" "airspeed"];
            SocketEventMessage "A" (message "deregister" "" ∅) []]).
  reflexivity.
Defined.

(** X4 at work: a connection, a setdata and a teleport message. *)
Lemma registry_changed_only_by_registration_witness :
  requestManager (handled writesOnly knotsAndFeet)
  = requestManager knotsAndFeet.
Proof.
  apply (registry_changed_only_by_registration writesOnly knotsAndFeet
           (handled writesOnly knotsAndFeet)).
  - repeat constructor; discriminate.
  - reflexivity.
Defined.

(** X10 at work: the provider holds no value for the variable of A. *)
Lemma tick_sends_empty_data_witness :
  Send "A" (simvarsMsg "panel1" ∅)
  ∈ emitted registeredUnpublished (OnDataReady registeredUnpublished).
Proof.
  apply (tick_sends_empty_data registeredUnpublished
           {| ClientID := "A"; Meta := "panel1";
              Vars := {[1%N := {| Name := "AIRSPEED TRUE";
                                  Moniker := "spd" |}]} |}).
  - vm_compute. constructor.
  - intros defineID v _. reflexivity.
Defined.

(** X9 at work: each of the two Requests holds one variable. *)
Lemma tick_repeats_witness :
  emitted (OnDataReady knotsAndFeet) (OnDataReady (OnDataReady knotsAndFeet))
  = emitted knotsAndFeet (OnDataReady knotsAndFeet).
Proof.
  apply (tick_repeats knotsAndFeet).
  assert (E : Requests (requestManager knotsAndFeet)
              = [ {| ClientID := "A"; Meta := "panel1";
                     Vars := {[1%N := {| Name := "AIRSPEED TRUE";
                                         Moniker := "spd" |}]} |};
                  {| ClientID := "B"; Meta := "panel2";
                     Vars := {[2%N := {| Name := "AIRSPEED TRUE";
                                         Moniker := "airspeed" |}]} |} ])
    by (vm_compute; reflexivity).
  rewrite E.
  apply Forall_cons_2; [|apply Forall_cons_2; [|apply Forall_nil_2]];
    cbn [Vars];
    intros d d' v v' [<- _]%lookup_singleton_Some
      [<- _]%lookup_singleton_Some _; reflexivity.
Defined.

(** X13, X14 and X15 at work. *)
Lemma connect_returns_witness :
  exists r,
    connect (thirdAttempt (fun _ => CaseTimeoutTimer)) "GoPilot" 5 6 = Some r
    ∧ 0 <= attempts r
    ∧ Second * attempts r <= Z.max 0 (durationOf 5)
    ∧ elapsed r <= Z.max 0 (durationOf 5)
    ∧ opened r = replicate (Z.to_nat (attempts r)) "GoPilot"
    ∧ (forall j, 0 < j < attempts r ->
         Open (thirdAttempt (fun _ => CaseTimeoutTimer)) j = false)
    ∧ match err r with
      | None =>
          0 < attempts r
          ∧ Open (thirdAttempt (fun _ => CaseTimeoutTimer)) (attempts r)
            = true
          ∧ elapsed r = Second * attempts r
      | Some e =>
          e = CouldNotOpen 5
          ∧ elapsed r = Z.max 0 (durationOf 5)
          ∧ Z.max 0 (durationOf 5) <= Second * (attempts r + 1)
          ∧ (0 < attempts r ->
             Open (thirdAttempt (fun _ => CaseTimeoutTimer)) (attempts r)
             = false)
      end.
Proof.
  apply (connect_returns (thirdAttempt (fun _ => CaseTimeoutTimer))
           "GoPilot" 5 6).
  vm_compute. reflexivity.
Defined.

Lemma connect_first_success_witness :
  connect (thirdAttempt (fun _ => CaseTimeoutTimer)) "GoPilot" 5 3
  = Some {| err := None; attempts := 3; elapsed := Second * 3;
            opened := replicate (Z.to_nat 3) "GoPilot" |}.
Proof.
  apply (connect_first_success (thirdAttempt (fun _ => CaseTimeoutTimer))
           "GoPilot" 5 3 3).
  - lia.
  - intros j Hj. simpl. lia.
  - reflexivity.
  - left. vm_compute. reflexivity.
  - simpl. lia.
Defined.

Lemma connect_nonpositive_duration_witness :
  connect (thirdAttempt (fun _ => CaseConnectTicker)) "GoPilot" 9223372037 1
  = Some {| err := Some (CouldNotOpen 9223372037);
            attempts := 0; elapsed := 0; opened := [] |}.
Proof.
  apply (connect_nonpositive_duration
           (thirdAttempt (fun _ => CaseConnectTicker)) "GoPilot"
           9223372037 1).
  - right. left. reflexivity.
  - lia.
Defined.

(** X16 and X17 at work. *)
Lemma GeneratedContentHandler_serves_witness :
  GeneratedContentHandler (Headers "text/plain; charset=utf-8") "/debug"
    (fun w => w) "/debug/" []
  = [] ++ [HttpError "Not Found" 404].
Proof.
  apply (GeneratedContentHandler_serves
           (Headers "text/plain; charset=utf-8") "/debug" (fun w => w)
           "/debug/" []).
  discriminate.
Defined.

Lemma StaticContentHandler_serves_witness :
  StaticContentHandler (Headers "text/html") "/"
    "assets/html/vfrmap.html" "/index.html" []
  = [] ++ [HttpError "Not Found" 404].
Proof.
  apply (StaticContentHandler_serves (Headers "text/html") "/"
           "assets/html/vfrmap.html" "/index.html" []).
  discriminate.
Defined.
